(** * reddit-plugin-place: the canvasse and utils modules

    A shallow embedding of
      - [public/static/js/place/canvasse.js]: the colour parser and the
        display/buffer canvas pair, and
      - [public/static/js/place/utils.js]: [bindEvents] and [hijack],
    together with the parts of the JavaScript language and of the browser's
    2D canvas API that the two files call.

    Conventions.
      - A JavaScript integer is a [Z]; the 32-bit conversions that the
        bitwise operators perform are written out ([toInt32]).
      - A string is a [string] whose characters are the code units
        U+0000..U+00FF.
      - A method that mutates [this] and may throw is a function from the
        object to an outcome and the object as the call leaves it: what a
        method assigned before it threw stays assigned.
      - A canvas dimension is the integer assigned to it.  The limits of the
        platform (largest canvas, largest typed array) and the conversions
        the DOM applies to dimensions outside 0..2^31-1 are not modelled. *)

From Stdlib Require Import ZArith Lia Ascii String.
From stdpp Require Import base option list strings gmap.

Local Open Scope Z_scope.

(** ** The JavaScript primitives the sources use *)

Module JS.

(** The exceptions that the modelled calls can raise. *)
Inductive Exn : Type :=
  | TypeError
  | RangeError
  | InvalidStateError
  | IndexSizeError.

(** The result of a call: a value, or a thrown exception. *)
Inductive Outcome (A : Type) : Type :=
  | Ok (v : A)
  | Throw (e : Exn).
Arguments Ok {A} v.
Arguments Throw {A} e.

(** The values [parseInt] can return. *)
Inductive Number : Type :=
  | NaN
  | Infinity (negative : bool)
  | Int (z : Z).

(** ToInt32, applied by [>>] and [&] to their operands. *)
Definition toInt32 (n : Number) : Z :=
  match n with
  | Int z =>
      let m := z mod 2 ^ 32 in
      if 2 ^ 31 <=? m then m - 2 ^ 32 else m
  | NaN | Infinity _ => 0
  end.

(** [a >> n]: the left operand goes through ToInt32, the shift count is
    taken modulo 32, the sign is kept. *)
Definition sar (a : Number) (n : Z) : Z := Z.shiftr (toInt32 a) (n mod 32).

(** [a & m] for a mask [m] that is a non-negative 32-bit integer. *)
Definition bitand (a : Number) (m : Z) : Z := Z.land (toInt32 a) m.

(** The nearest double of a non-negative integer, ties to even. *)
Definition roundMagnitude (n : Z) : Number :=
  if n <? 2 ^ 53 then Int n
  else
    let e := Z.log2 n - 52 in
    let q := n / 2 ^ e in
    let rest := n mod 2 ^ e in
    let half := 2 ^ (e - 1) in
    let q' := if (half <? rest) || ((rest =? half) && Z.odd q) then q + 1 else q in
    let v := q' * 2 ^ e in
    if 2 ^ 1024 <=? v then Infinity false else Int v.

(** The Number value of a mathematical integer. *)
Definition toNumber (z : Z) : Number :=
  if 0 <=? z then roundMagnitude z
  else
    match roundMagnitude (- z) with
    | Int m => Int (- m)
    | Infinity _ => Infinity true
    | NaN => NaN
    end.

Definition code (c : ascii) : Z := Z.of_nat (nat_of_ascii c).

(** WhiteSpace and LineTerminator, among the code units below 256. *)
Definition isWhiteSpace (c : ascii) : bool :=
  let n := code c in
  ((9 <=? n) && (n <=? 13)) || (n =? 32) || (n =? 160).

(** The value of a digit of radix 16. *)
Definition hexDigit (c : ascii) : option Z :=
  let n := code c in
  if (48 <=? n) && (n <=? 57) then Some (n - 48)
  else if (65 <=? n) && (n <=? 70) then Some (n - 55)
  else if (97 <=? n) && (n <=? 102) then Some (n - 87)
  else None.

Fixpoint trimStart (s : string) : string :=
  match s with
  | EmptyString => EmptyString
  | String c rest => if isWhiteSpace c then trimStart rest else s
  end.

(** The sign of the literal, and what follows it. *)
Definition stripSign (s : string) : bool * string :=
  match s with
  | String c rest =>
      if (code c =? 45) then (true, rest)
      else if (code c =? 43) then (false, rest)
      else (false, s)
  | EmptyString => (false, s)
  end.

(** A leading [0x] or [0X] is dropped when the radix is 16. *)
Definition stripHexPrefix (s : string) : string :=
  match s with
  | String c0 (String c1 rest) =>
      if (code c0 =? 48) && ((code c1 =? 120) || (code c1 =? 88)) then rest else s
  | _ => s
  end.

(** The digits of the longest prefix made of digits of radix 16. *)
Fixpoint hexPrefix (s : string) : list Z :=
  match s with
  | EmptyString => []
  | String c rest =>
      match hexDigit c with
      | Some d => d :: hexPrefix rest
      | None => []
      end
  end.

Definition digitsValue (ds : list Z) : Z :=
  fold_left (fun acc d => 16 * acc + d) ds 0.

(** [parseInt(s, 16)]. *)
Definition parseInt16 (s : string) : Number :=
  let '(negative, body) := stripSign (trimStart s) in
  match hexPrefix (stripHexPrefix body) with
  | [] => NaN
  | ds =>
      let mathInt := digitsValue ds in
      toNumber (if negative then - mathInt else mathInt)
  end.

(** [s.slice(1)]. *)
Definition slice1 (s : string) : string :=
  match s with
  | EmptyString => EmptyString
  | String _ rest => rest
  end.

(** ToUint8Clamp of an integer. *)
Definition toUint8Clamp (v : Z) : Z := Z.min 255 (Z.max 0 v).

(** [new Uint8ClampedArray(length)]: zero-filled. *)
Definition newUint8ClampedArray (len : Z) : Outcome (list Z) :=
  if len <? 0 then Throw RangeError
  else Ok (replicate (Z.to_nat len) 0).

(** [arr[i] = v] on a Uint8ClampedArray: an index outside the array is
    ignored, the array never grows. *)
Definition typedSet (arr : list Z) (i v : Z) : list Z :=
  if (0 <=? i) && (i <? Z.of_nat (length arr))
  then <[Z.to_nat i := toUint8Clamp v]> arr
  else arr.

(** [arr[i]] read back: [undefined] outside the array. *)
Definition typedGet (arr : list Z) (i : Z) : option Z :=
  if 0 <=? i then arr !! Z.to_nat i else None.

(** [a + b] and [a * b] on Numbers that hold integers: the exact sum or
    product, rounded to the nearest double; an infinity absorbs what is
    finite, and [Infinity - Infinity] and [0 * Infinity] are [NaN]. *)
Definition numAdd (a b : Number) : Number :=
  match a, b with
  | Int x, Int y => toNumber (x + y)
  | NaN, _ | _, NaN => NaN
  | Infinity s, Infinity t => if Bool.eqb s t then Infinity s else NaN
  | Infinity s, Int _ | Int _, Infinity s => Infinity s
  end.

Definition numMul (a b : Number) : Number :=
  match a, b with
  | Int x, Int y => toNumber (x * y)
  | NaN, _ | _, NaN => NaN
  | Infinity s, Infinity t => Infinity (xorb s t)
  | Infinity s, Int y | Int y, Infinity s =>
      if y =? 0 then NaN else Infinity (xorb s (y <? 0))
  end.

(** [arr[i] = v] for a Number [i]: [NaN] and the infinities are no index
    of the array, and the write is ignored. *)
Definition typedSetAt (arr : list Z) (i : Number) (v : Z) : list Z :=
  match i with
  | Int z => typedSet arr z v
  | NaN | Infinity _ => arr
  end.

End JS.

(** ** The 2D canvas API, as far as the sources call it *)

Module Canvas2D.
Import JS.

(** A pixel of a canvas bitmap: red, green, blue and alpha, each 0..255. *)
Record Rgba : Type := RGBA { chRed : Z; chGreen : Z; chBlue : Z; chAlpha : Z }.

Definition transparent : Rgba := RGBA 0 0 0 0.
Definition opaqueBlack : Rgba := RGBA 0 0 0 255.

(** A canvas element with its 2D context: the bitmap is kept row by row,
    [cwidth * cheight] pixels, and [fillStyle] is the only context state the
    sources set (no transform, no clipping, the default compositing).  A
    canvas has one 2D context, so the element and the context are one
    record. *)
Record Canvas : Type := mkCanvas {
  cwidth : Z;
  cheight : Z;
  bitmap : list Rgba;
  fillStyle : Rgba
}.

(** What the sources leave to the browser: the colour notations other than
    the hexadecimal ones, how a partly transparent pixel is blended over
    another one, and the pixel that a source canvas stretched to
    [dw] x [dh] contributes at a destination coordinate. *)
Class Browser : Type := {
  cssOther : string -> option Rgba;
  blend : Rgba -> Rgba -> Rgba;
  resample : Canvas -> Z -> Z -> Z -> Z -> Rgba
}.

(** The hexadecimal colour notations [#rgb], [#rgba], [#rrggbb] and
    [#rrggbbaa]. *)
Definition cssHexColor (s : string) : option Rgba :=
  match s with
  | String c rest =>
      if code c =? 35 then
        match mapM hexDigit (list_ascii_of_string rest) with
        | Some [r; g; b] => Some (RGBA (17 * r) (17 * g) (17 * b) 255)
        | Some [r; g; b; a] => Some (RGBA (17 * r) (17 * g) (17 * b) (17 * a))
        | Some [r1; r0; g1; g0; b1; b0] =>
            Some (RGBA (16 * r1 + r0) (16 * g1 + g0) (16 * b1 + b0) 255)
        | Some [r1; r0; g1; g0; b1; b0; a1; a0] =>
            Some (RGBA (16 * r1 + r0) (16 * g1 + g0) (16 * b1 + b0) (16 * a1 + a0))
        | _ => None
        end
      else None
  | EmptyString => None
  end.

(** A string of the form [#RRGGBB]: a number sign and six digits of
    radix 16. *)
Definition isHexColor6 (s : string) : bool :=
  match s with
  | String c rest =>
      (code c =? 35)
      && (Nat.eqb (String.length rest) 6)
      && forallb (fun d => bool_decide (is_Some (hexDigit d))) (list_ascii_of_string rest)
  | EmptyString => false
  end.

Definition blankCanvas (w h : Z) : Canvas :=
  {| cwidth := w;
     cheight := h;
     bitmap := replicate (Z.to_nat w * Z.to_nat h) transparent;
     fillStyle := opaqueBlack |}.

(** [canvas.width = w] and [canvas.height = h]: the bitmap takes the new
    size and is cleared, and the context is reset, also when the value
    assigned is the one the canvas already has. *)
Definition setWidth (c : Canvas) (w : Z) : Canvas := blankCanvas w (cheight c).
Definition setHeight (c : Canvas) (h : Z) : Canvas := blankCanvas (cwidth c) h.

(** [document.createElement('canvas')]: 300 x 150 pixels. *)
Definition createCanvas : Canvas := blankCanvas 300 150.

(** The pixel at [(x, y)], if the canvas has one there. *)
Definition pixelAt (c : Canvas) (x y : Z) : option Rgba :=
  if (0 <=? x) && (x <? cwidth c) && (0 <=? y) && (y <? cheight c)
  then bitmap c !! Z.to_nat (y * cwidth c + x)
  else None.

Section WithBrowser.
Context {browser : Browser}.

(** A CSS colour, parsed. *)
Definition parseCssColor (s : string) : option Rgba :=
  match cssHexColor s with
  | Some c => Some c
  | None => cssOther s
  end.

(** [ctx.fillStyle = color]: a string that is no colour is ignored. *)
Definition setFillStyle (color : string) (c : Canvas) : Canvas :=
  match parseCssColor color with
  | Some col =>
      {| cwidth := cwidth c; cheight := cheight c; bitmap := bitmap c; fillStyle := col |}
  | None => c
  end.

(** Source-over compositing, the context's default: an opaque source
    replaces the destination, a fully transparent one leaves it. *)
Definition over (src dst : Rgba) : Rgba :=
  if chAlpha src =? 255 then src
  else if chAlpha src =? 0 then dst
  else blend src dst.

(** Every pixel of the bitmap recomputed from its coordinate. *)
Definition paint (c : Canvas) (f : Z -> Z -> Rgba -> Rgba) : Canvas :=
  {| cwidth := cwidth c;
     cheight := cheight c;
     bitmap :=
       imap (fun k p => f (Z.of_nat k mod cwidth c) (Z.of_nat k / cwidth c) p) (bitmap c);
     fillStyle := fillStyle c |}.

(** The pixels a rectangle covers; a negative extent reaches to the left
    or upwards. *)
Definition inRect (x y w h px py : Z) : bool :=
  (Z.min x (x + w) <=? px) && (px <? Z.max x (x + w))
  && (Z.min y (y + h) <=? py) && (py <? Z.max y (y + h)).

(** [ctx.fillRect(x, y, w, h)]. *)
Definition fillRect (c : Canvas) (x y w h : Z) : Canvas :=
  paint c (fun px py p => if inRect x y w h px py then over (fillStyle c) p else p).

(** [ctx.clearRect(x, y, w, h)]. *)
Definition clearRect (c : Canvas) (x y w h : Z) : Canvas :=
  paint c (fun px py p => if inRect x y w h px py then transparent else p).

(** The pixel that [src], drawn at the origin with size [dw] x [dh],
    contributes at [(px, py)]. *)
Definition sourceAt (src : Canvas) (dw dh px py : Z) : Rgba :=
  if (dw =? cwidth src) && (dh =? cheight src)
  then default transparent (pixelAt src px py)
  else resample src dw dh px py.

(** [ctx.drawImage(src, 0, 0, dw, dh)] on the canvas [dst]: a source
    canvas without pixels is refused. *)
Definition drawImage (dst src : Canvas) (dw dh : Z) : Outcome Canvas :=
  if (cwidth src =? 0) || (cheight src =? 0) then Throw InvalidStateError
  else Ok (paint dst (fun px py p => over (sourceAt src dw dh px py) p)).

End WithBrowser.

(** An ImageData object. *)
Record ImageData : Type := mkImageData {
  data : list Z;
  iwidth : Z;
  iheight : Z
}.

(** [new ImageData(data, sw, sh)]: the data must be a whole, non-zero
    number of pixels, [sw] must divide that number, and [sh] must be the
    quotient.  A width that is not positive divides no such number. *)
Definition newImageData (bytes : list Z) (sw sh : Z) : Outcome ImageData :=
  let n := Z.of_nat (length bytes) in
  if (n =? 0) || negb (n mod 4 =? 0) then Throw InvalidStateError
  else if sw <=? 0 then Throw IndexSizeError
  else if negb ((n / 4) mod sw =? 0) then Throw IndexSizeError
  else if negb (n / 4 / sw =? sh) then Throw IndexSizeError
  else Ok {| data := bytes; iwidth := sw; iheight := sh |}.

(** The pixel of an ImageData at [(x, y)]. *)
Definition imagePixel (img : ImageData) (x y : Z) : Rgba :=
  let i := 4 * (y * iwidth img + x) in
  RGBA (default 0 (typedGet (data img) i))
       (default 0 (typedGet (data img) (i + 1)))
       (default 0 (typedGet (data img) (i + 2)))
       (default 0 (typedGet (data img) (i + 3))).

(** [ctx.putImageData(img, 0, 0)]: the pixels the image covers are
    replaced, without compositing. *)
Definition putImageData (c : Canvas) (img : ImageData) : Canvas :=
  paint c (fun px py p =>
             if (px <? iwidth img) && (py <? iheight img) then imagePixel img px py else p).

End Canvas2D.

(** ** canvasse.js *)

Module Canvasse.
Import JS Canvas2D.

(** A dict with the red, green and blue values of a colour. *)
Record Color : Type := mkColor { red : Z; green : Z; blue : Z }.

(** [parseHexColor]: the string without its first character read as a
    number of radix 16, and one byte of it per channel. *)
Definition parseHexColor (hexColor : string) : Color :=
  let colorVal := parseInt16 (slice1 hexColor) in
  {| red := bitand (Int (sar colorVal 16)) 255;
     green := bitand (Int (sar colorVal 8)) 255;
     blue := bitand colorVal 255 |}.

(** The canvasse object.  [el] stands for the fields [el] and [ctx], and
    [bufferEl] for [bufferEl] and [bufferCtx]: [init] assigns each pair
    together and nothing else assigns them; [None] is [null]. *)
Record Canvasse : Type := mkCanvasse {
  width : Z;
  height : Z;
  el : option Canvas;
  bufferEl : option Canvas;
  isBufferDirty : bool;
  isDisplayDirty : bool
}.

(** The object as the module returns it. *)
Definition initial : Canvasse :=
  {| width := 0; height := 0; el := None; bufferEl := None;
     isBufferDirty := false; isDisplayDirty := false |}.

(** An element of the [state] array: [[x, y, color]]. *)
Record PixelState : Type := Pixel { pixelX : Z; pixelY : Z; pixelColor : string }.

(** A method of the object: the outcome, and [this] as the call leaves it. *)
Definition M (A : Type) : Type := Canvasse -> Outcome A * Canvasse.

Definition ret {A} (v : A) : M A := fun this => (Ok v, this).

Definition bind {A B} (m : M A) (k : A -> M B) : M B := fun this =>
  match m this with
  | (Ok v, this') => k v this'
  | (Throw e, this') => (Throw e, this')
  end.

Definition lift {A} (o : Outcome A) : M A := fun this => (o, this).

Definition get {A} (f : Canvasse -> A) : M A := fun this => (Ok (f this), this).

Definition modify (f : Canvasse -> Canvasse) : M unit := fun this => (Ok tt, f this).

#[export] Instance canvasse_ret : MRet M := @ret.
#[export] Instance canvasse_bind : MBind M := fun A B k m => bind m k.

(** A property read off [null] is a TypeError. *)
Definition nonNull {A} (o : option A) : M A :=
  match o with
  | Some v => ret v
  | None => lift (Throw TypeError)
  end.

Definition setEl (c : Canvas) (this : Canvasse) : Canvasse :=
  {| width := width this; height := height this; el := Some c;
     bufferEl := bufferEl this; isBufferDirty := isBufferDirty this;
     isDisplayDirty := isDisplayDirty this |}.

Definition setBufferEl (c : Canvas) (this : Canvasse) : Canvasse :=
  {| width := width this; height := height this; el := el this;
     bufferEl := Some c; isBufferDirty := isBufferDirty this;
     isDisplayDirty := isDisplayDirty this |}.

Definition setIsBufferDirty (v : bool) (this : Canvasse) : Canvasse :=
  {| width := width this; height := height this; el := el this;
     bufferEl := bufferEl this; isBufferDirty := v;
     isDisplayDirty := isDisplayDirty this |}.

Definition setIsDisplayDirty (v : bool) (this : Canvasse) : Canvasse :=
  {| width := width this; height := height this; el := el this;
     bufferEl := bufferEl this; isBufferDirty := isBufferDirty this;
     isDisplayDirty := v |}.

(** The flat index of the first byte of pixel [(x, y)], in exact integers;
    [flatIndexNumber] is the same expression in the doubles of the source,
    and the two agree as long as no step rounds ([exactIndex]). *)
Definition flatIndex (width x y : Z) : Z := 4 * (y * width + x).

Definition flatIndexNumber (width x y : Z) : Number :=
  numMul (Int 4) (numAdd (numMul (Int y) (Int width)) (Int x)).

(** The body of the [forEach] callback of [writeStateToBuffer]. *)
Definition writePixelState (width : Z) (pixelData : list Z) (pixelState : PixelState)
  : list Z :=
  let x := pixelX pixelState in
  let y := pixelY pixelState in
  let color := parseHexColor (pixelColor pixelState) in
  let i := flatIndex width x y in
  let pixelData := typedSet pixelData i (red color) in
  let pixelData := typedSet pixelData (i + 1) (green color) in
  let pixelData := typedSet pixelData (i + 2) (blue color) in
  typedSet pixelData (i + 3) 255.

(** The same callback with the index and its three successors computed
    in doubles, as the source computes them. *)
Definition writePixelStateNumber (width : Z) (pixelData : list Z)
    (pixelState : PixelState) : list Z :=
  let x := pixelX pixelState in
  let y := pixelY pixelState in
  let color := parseHexColor (pixelColor pixelState) in
  let i := flatIndexNumber width x y in
  let pixelData := typedSetAt pixelData i (red color) in
  let pixelData := typedSetAt pixelData (numAdd i (Int 1)) (green color) in
  let pixelData := typedSetAt pixelData (numAdd i (Int 2)) (blue color) in
  typedSetAt pixelData (numAdd i (Int 3)) 255.

(** The byte array that [writeStateToBuffer] hands to [ImageData]. *)
Definition pixelDataOf (width height : Z) (state : list PixelState)
  : Outcome (list Z) :=
  match newUint8ClampedArray (4 * width * height) with
  | Ok pixelData => Ok (fold_left (writePixelState width) state pixelData)
  | Throw e => Throw e
  end.

Section Methods.
Context {browser : Browser}.

(** [init]: the element given becomes the display canvas, a canvas newly
    created becomes the buffer, and both are given the width and the
    height. *)
Definition init (el0 : Canvas) (w h : Z) : M unit :=
  modify (fun this =>
    {| width := w; height := h;
       el := Some (setHeight (setWidth el0 w) h);
       bufferEl := Some (setHeight (setWidth createCanvas w) h);
       isBufferDirty := isBufferDirty this;
       isDisplayDirty := isDisplayDirty this |}).

Definition drawTileToDisplay (x y : Z) (color : string) : M unit :=
  ctx ← (get el ≫= nonNull);
  modify (setEl (setFillStyle color ctx));;
  ctx ← (get el ≫= nonNull);
  modify (setEl (fillRect ctx x y 1 1));;
  modify (setIsDisplayDirty true).

Definition drawRectToDisplay (x y w h : Z) (color : string) : M unit :=
  ctx ← (get el ≫= nonNull);
  modify (setEl (setFillStyle color ctx));;
  ctx ← (get el ≫= nonNull);
  modify (setEl (fillRect ctx x y w h));;
  modify (setIsDisplayDirty true).

Definition clearRectFromDisplay (x y w h : Z) : M unit :=
  ctx ← (get el ≫= nonNull);
  modify (setEl (clearRect ctx x y w h));;
  modify (setIsDisplayDirty true).

Definition drawTileToBuffer (x y : Z) (color : string) : M unit :=
  bufferCtx ← (get bufferEl ≫= nonNull);
  modify (setBufferEl (setFillStyle color bufferCtx));;
  bufferCtx ← (get bufferEl ≫= nonNull);
  modify (setBufferEl (fillRect bufferCtx x y 1 1));;
  modify (setIsBufferDirty true).

Definition drawBufferToDisplay : M unit :=
  ctx ← (get el ≫= nonNull);
  src ← (get bufferEl ≫= nonNull);
  w ← get width;
  h ← get height;
  ctx' ← lift (drawImage ctx src w h);
  modify (setEl ctx');;
  modify (setIsBufferDirty false).

Definition drawDisplayToBuffer : M unit :=
  bufferCtx ← (get bufferEl ≫= nonNull);
  src ← (get el ≫= nonNull);
  w ← get width;
  h ← get height;
  bufferCtx' ← lift (drawImage bufferCtx src w h);
  modify (setBufferEl bufferCtx');;
  modify (setIsDisplayDirty false).

(** Deprecated: draw to the buffer and update the display at once. *)
Definition drawTileAt (x y : Z) (color : string) : M unit :=
  drawTileToBuffer x y color;;
  drawBufferToDisplay.

Definition writeStateToBuffer (state : list PixelState) : M unit :=
  width ← get width;
  height ← get height;
  pixelData ← lift (pixelDataOf width height state);
  imageData ← lift (newImageData pixelData width height);
  bufferCtx ← (get bufferEl ≫= nonNull);
  modify (setBufferEl (putImageData bufferCtx imageData)).

End Methods.

End Canvasse.

(** ** utils.js *)

Module Utils.
Import JS.

(** *** bindEvents *)

(** An entry of a target's event listener list; a callback is a function
    object, known by its identity. *)
Record Listener : Type := mkListener {
  eventType : string;
  callback : nat;
  capture : bool
}.

#[export] Instance Listener_eq_dec : EqDecision Listener.
Proof. solve_decision. Defined.

(** [target.addEventListener(type, callback, capture)]: a listener with
    the same type, callback and capture flag is not added twice. *)
Definition addEventListener (target : list Listener) (type : string) (cb : nat)
    (useCapture : bool) : list Listener :=
  let l := mkListener type cb useCapture in
  if decide (l ∈ target) then target else target ++ [l].

(** The events dictionary: its properties in the order [for ... in]
    enumerates them, and [eventsDict[event]]. *)
Definition keysOf (eventsDict : list (string * nat)) : list string :=
  eventsDict.*1.

Definition property (eventsDict : list (string * nat)) (event : string) : option nat :=
  (fun found => found.2.2) <$> list_find (fun p => p.1 = event) eventsDict.

(** The body of the loop of [bindEvents]: the listener is registered with
    the literal [true]. *)
Definition bindStep (eventsDict : list (string * nat)) (target : list Listener)
    (event : string) : list Listener :=
  match property eventsDict event with
  | Some handler => addEventListener target event handler true
  | None => target
  end.

(** [bindEvents]; [useCapture] is [None] when the argument is omitted.
    The value computed for [useCapture] is not the one passed on. *)
Definition bindEvents (target : list Listener) (eventsDict : list (string * nat))
    (useCapture : option bool) : list Listener :=
  let useCapture := match useCapture with None => true | Some b => b end in
  fold_left (bindStep eventsDict) (keysOf eventsDict) target.

(** *** hijack *)

(** The values the objects hold.  A function is either one given from
    outside, known by its identity, or the closure that [hijack] builds,
    which captures the original method and [fn]. *)
Inductive Value : Type :=
  | VUndefined
  | VNumber (z : Z)
  | VString (s : string)
  | VFunction (f : Func)
with Func : Type :=
  | Native (id : nat)
  | Hijacked (targetMethod : Value) (fn : Value).

Section Calls.

(** What a function given from outside does when it is applied to the
    target object with a list of arguments. *)
Variable native : nat -> list Value -> gmap string Value -> Outcome Value * gmap string Value.

(** [f.apply(target, args)]. *)
Fixpoint applyFn (f : Func) (args : list Value) (target : gmap string Value)
  : Outcome Value * gmap string Value :=
  match f with
  | Native id => native id args target
  | Hijacked targetMethod fn =>
      let target := <["targetMethod" := targetMethod]> target in
      match fn with
      | VFunction g =>
          match applyFn g args target with
          | (Ok res, target) => (Ok VUndefined, delete "targetMethod" target)
          | (Throw e, target) => (Throw e, target)
          end
      | _ => (Throw TypeError, target)
      end
  end.

End Calls.

(** [hijack(target, methodName, fn)]. *)
Definition hijack (target : gmap string Value) (methodName : string) (fn : Value)
  : gmap string Value :=
  let targetMethod := default VUndefined (target !! methodName) in
  <[methodName := VFunction (Hijacked targetMethod fn)]> target.

End Utils.

(** ** The vocabulary of the properties *)

Import JS Canvas2D Canvasse Utils.

(** A colour as a pixel: fully opaque. *)
Definition colorPixel (c : Color) : Rgba := RGBA (red c) (green c) (blue c) 255.

(** The update [p] is for the coordinate [(x, y)]. *)
Definition targets (x y : Z) (p : PixelState) : bool :=
  (pixelX p =? x) && (pixelY p =? y).

(** The last update of the list for [(x, y)]. *)
Definition lastUpdate (x y : Z) (state : list PixelState) : option PixelState :=
  find (targets x y) (rev state).

(** The pixel expected at [(x, y)] once [state] is materialized. *)
Definition expectedPixel (x y : Z) (state : list PixelState) : Rgba :=
  match lastUpdate x y state with
  | Some p => colorPixel (parseHexColor (pixelColor p))
  | None => transparent
  end.

Definition inBounds (w h x y : Z) : Prop := 0 <= x < w /\ 0 <= y < h.

(** A canvas of [w] x [h] pixels. *)
Definition sized (w h : Z) (c : Canvas) : Prop :=
  cwidth c = w /\ cheight c = h /\
  length (bitmap c) = (Z.to_nat w * Z.to_nat h)%nat.

(** An initialized pair: the display and the buffer canvas exist and both
    have the size that the fields [width] and [height] record. *)
Definition initialized (w h : Z) (this : Canvasse) : Prop :=
  width this = w /\ height this = h /\
  exists d b, el this = Some d /\ bufferEl this = Some b /\ sized w h d /\ sized w h b.

(** The pixels of the display canvas. *)
Definition displayPixels (this : Canvasse) : option (list Rgba) := bitmap <$> el this.

(** The calls a user of the module can make after [init]. *)
Inductive Op : Type :=
  | DrawTileAt (x y : Z) (color : string)
  | DrawTileToDisplay (x y : Z) (color : string)
  | DrawRectToDisplay (x y w h : Z) (color : string)
  | ClearRectFromDisplay (x y w h : Z)
  | DrawTileToBuffer (x y : Z) (color : string)
  | DrawBufferToDisplay
  | DrawDisplayToBuffer
  | WriteStateToBuffer (state : list PixelState).

Definition perform {browser : Browser} (op : Op) : M unit :=
  match op with
  | DrawTileAt x y color => drawTileAt x y color
  | DrawTileToDisplay x y color => drawTileToDisplay x y color
  | DrawRectToDisplay x y w h color => drawRectToDisplay x y w h color
  | ClearRectFromDisplay x y w h => clearRectFromDisplay x y w h
  | DrawTileToBuffer x y color => drawTileToBuffer x y color
  | DrawBufferToDisplay => drawBufferToDisplay
  | DrawDisplayToBuffer => drawDisplayToBuffer
  | WriteStateToBuffer state => writeStateToBuffer state
  end.

(** A run of calls on the object; a call that throws leaves the object as
    it was when it threw, and the next call goes on from there. *)
Definition performAll {browser : Browser} (ops : list Op) (this : Canvasse) : Canvasse :=
  fold_left (fun this op => (perform op this).2) ops this.

(** The two steps that the documentation of [drawTileAt] tells new code to
    call one after the other; the second is not reached when the first
    throws. *)
Definition writeThenFlush {browser : Browser} (x y : Z) (color : string) (this : Canvasse)
  : Outcome unit * Canvasse :=
  match drawTileToBuffer x y color this with
  | (Ok _, this') => drawBufferToDisplay this'
  | (Throw e, this') => (Throw e, this')
  end.

(** A browser to run the model on: no colour notation but the hexadecimal
    ones, blending by taking the source, stretching by leaving the
    destination as it is. *)
Definition plainBrowser : Browser :=
  {| cssOther := fun _ => None;
     blend := fun src _ => src;
     resample := fun _ _ _ _ _ => transparent |}.

(** Three pairs to run the model on: one of 2 x 2 pixels just initialized;
    the same with a green tile on the display and red tiles in the buffer;
    and one of a single pixel whose buffer has been painted red. *)
Definition freshPair : Canvasse := (init (blankCanvas 300 150) 2 2 initial).2.

Definition mixedPair : Canvasse :=
  performAll (browser := plainBrowser)
    [DrawTileToDisplay 0 0 "#00ff00"; DrawTileToBuffer 0 0 "#ff0000";
     DrawTileToBuffer 1 0 "#ff0000"]
    freshPair.

Definition paintedPair : Canvasse :=
  (drawTileToBuffer (browser := plainBrowser) 0 0 "#ff0000"
     (init (blankCanvas 300 150) 1 1 initial).2).2.

(** The object with its two dirty flags replaced. *)
Definition setFlags (bufferDirty displayDirty : bool) (this : Canvasse) : Canvasse :=
  setIsDisplayDirty displayDirty (setIsBufferDirty bufferDirty this).

(** The update [p] lands on the pixel [(x, y)] of a grid [width] wide: its
    flat index is the one of [(x, y)]. *)
Definition landsOn (width x y : Z) (p : PixelState) : bool :=
  flatIndex width (pixelX p) (pixelY p) =? flatIndex width x y.

(** A safe integer: one that a double holds exactly, as do its neighbours
    ([Number.isSafeInteger]). *)
Definition safeInteger (z : Z) : Prop := Z.abs z <= 2 ^ 53 - 1.

(** The doubles of the source compute the flat index of [(x, y)] and its
    three successors without rounding: the operands, the product, the index
    and the index of the alpha byte are safe integers. *)
Definition exactIndex (width x y : Z) : Prop :=
  safeInteger width /\ safeInteger x /\ safeInteger y /\
  safeInteger (y * width) /\
  safeInteger (flatIndex width x y) /\ safeInteger (flatIndex width x y + 3).

(** The update [p] lands inside the array of a grid of [width] x [height]
    pixels. *)
Definition landsInside (width height : Z) (p : PixelState) : bool :=
  (0 <=? flatIndex width (pixelX p) (pixelY p))
  && (flatIndex width (pixelX p) (pixelY p) <? 4 * width * height).

(** The last update of the list that lands on [(x, y)]. *)
Definition lastLanding (width x y : Z) (state : list PixelState) : option PixelState :=
  find (landsOn width x y) (rev state).

(** * Proofs *)

(** ** The colour parser *)

(** A digit of radix 16 is below 16, and is neither white space, a sign,
    nor the [x] of a [0x] prefix. *)
Lemma hexDigit_char c d :
  hexDigit c = Some d ->
  0 <= d < 16 /\ isWhiteSpace c = false /\
  (code c =? 45) = false /\ (code c =? 43) = false /\
  (code c =? 120) = false /\ (code c =? 88) = false.
Proof.
  destruct c as [[] [] [] [] [] [] [] []]; vm_compute; intros Hd;
    first [ discriminate Hd | injection Hd as <-; repeat split; congruence ].
Qed.

Lemma land_255 v : Z.land v 255 = v mod 256.
Proof. change 255 with (Z.ones 8). rewrite Z.land_ones by lia. reflexivity. Qed.

Lemma shiftr_div v n : 0 <= n -> Z.shiftr v n = v / 2 ^ n.
Proof. intros. apply Z.shiftr_div_pow2; lia. Qed.

(** A non-negative integer below 2^31 survives the conversions. *)
Lemma toInt32_Int v : 0 <= v < 2 ^ 31 -> toInt32 (Int v) = v.
Proof.
  intros Hv. change (2 ^ 31) with 2147483648 in Hv.
  unfold toInt32. change (2 ^ 32) with 4294967296. change (2 ^ 31) with 2147483648.
  rewrite Z.mod_small by lia.
  destruct (Z.leb_spec 2147483648 v); [lia|reflexivity].
Qed.

Lemma toNumber_small v : 0 <= v < 2 ^ 31 -> toNumber v = Int v.
Proof.
  intros Hv. unfold toNumber, roundMagnitude.
  assert (2 ^ 31 < 2 ^ 53) by (vm_compute; reflexivity).
  destruct (Z.leb_spec 0 v); [|lia].
  destruct (Z.ltb_spec v (2 ^ 53)); [reflexivity|lia].
Qed.

(** On a [#RRGGBB] string, [parseHexColor] finds the very channels the
    browser reads from it. *)
Lemma parseHexColor_hex6 s :
  isHexColor6 s = true ->
  cssHexColor s =
    Some (RGBA (red (parseHexColor s)) (green (parseHexColor s)) (blue (parseHexColor s)) 255).
Proof.
  unfold isHexColor6.
  destruct s as [|c0 [|c1 [|c2 [|c3 [|c4 [|c5 [|c6 [|c7 rest]]]]]]]];
    cbn [String.length Nat.eqb andb]; rewrite ?andb_false_r; try discriminate.
  cbn [list_ascii_of_string forallb].
  rewrite !andb_true_iff, !bool_decide_eq_true.
  intros ((Hc0 & _) & [d1 H1] & [d2 H2] & [d3 H3] & [d4 H4] & [d5 H5] & [d6 H6] & _).
  destruct (hexDigit_char _ _ H1) as (R1 & W1 & M1 & P1 & _).
  destruct (hexDigit_char _ _ H2) as (R2 & _ & _ & _ & X2 & X2').
  destruct (hexDigit_char _ _ H3) as (R3 & _).
  destruct (hexDigit_char _ _ H4) as (R4 & _).
  destruct (hexDigit_char _ _ H5) as (R5 & _).
  destruct (hexDigit_char _ _ H6) as (R6 & _).
  unfold cssHexColor. rewrite Hc0. cbn [list_ascii_of_string mapM].
  rewrite H1, H2, H3, H4, H5, H6. cbn [mbind option_bind mret option_ret].
  unfold parseHexColor, parseInt16, slice1.
  cbn [trimStart]. rewrite W1. cbn [stripSign]. rewrite M1, P1.
  cbn [stripHexPrefix]. rewrite X2, X2'. cbn [orb]. rewrite andb_false_r.
  cbn [hexPrefix]. rewrite H1, H2, H3, H4, H5, H6.
  unfold digitsValue. cbn [fold_left red green blue].
  set (v := 16 * (16 * (16 * (16 * (16 * (16 * 0 + d1) + d2) + d3) + d4) + d5) + d6).
  assert (Hv : 0 <= v < 2 ^ 31) by (change (2 ^ 31) with 2147483648; subst v; lia).
  rewrite toNumber_small by exact Hv.
  unfold bitand, sar. change (16 mod 32) with 16. change (8 mod 32) with 8.
  rewrite (toInt32_Int v Hv), !shiftr_div by lia.
  change (2 ^ 16) with 65536. change (2 ^ 8) with 256.
  assert (H16 : 0 <= v / 65536 < 2 ^ 31)
    by (change (2 ^ 31) with 2147483648 in *; Z.div_mod_to_equations; lia).
  assert (H8 : 0 <= v / 256 < 2 ^ 31)
    by (change (2 ^ 31) with 2147483648 in *; Z.div_mod_to_equations; lia).
  rewrite (toInt32_Int _ H16), (toInt32_Int _ H8), !land_255.
  f_equal. f_equal; subst v; Z.div_mod_to_equations; lia.
Qed.

(** Whatever the string, each channel is a byte. *)
Lemma channels_range s :
  let c := parseHexColor s in
  0 <= red c <= 255 /\ 0 <= green c <= 255 /\ 0 <= blue c <= 255.
Proof.
  cbn. unfold bitand. rewrite !land_255.
  repeat split; Z.div_mod_to_equations; lia.
Qed.

(** ** The pixel data array *)

Lemma toUint8Clamp_id v : 0 <= v <= 255 -> toUint8Clamp v = v.
Proof. unfold toUint8Clamp. lia. Qed.

Lemma length_typedSet arr i v : length (typedSet arr i v) = length arr.
Proof. unfold typedSet. case_match; [apply length_insert | reflexivity]. Qed.

Lemma typedGet_typedSet arr i v q :
  typedGet (typedSet arr i v) q =
    if (q =? i) && (0 <=? i) && (i <? Z.of_nat (length arr))
    then Some (toUint8Clamp v) else typedGet arr q.
Proof.
  unfold typedGet, typedSet.
  destruct (Z.eqb_spec q i) as [->|Hne]; cbn [andb].
  - destruct (Z.leb_spec 0 i); cbn [andb]; [|reflexivity].
    destruct (Z.ltb_spec i (Z.of_nat (length arr))); [|reflexivity].
    apply list_lookup_insert_eq. lia.
  - destruct ((0 <=? i) && (i <? Z.of_nat (length arr))) eqn:Hin; [|reflexivity].
    destruct (Z.leb_spec 0 q); [|reflexivity].
    apply list_lookup_insert_ne. apply andb_true_iff in Hin as [?%Z.leb_le _]. lia.
Qed.

Lemma length_writePixelState w arr p : length (writePixelState w arr p) = length arr.
Proof. unfold writePixelState. rewrite !length_typedSet. reflexivity. Qed.

Lemma length_fold_writePixelState w state arr :
  length (fold_left (writePixelState w) state arr) = length arr.
Proof.
  revert arr. induction state as [|p state IH]; intros arr; cbn; [reflexivity|].
  rewrite IH. apply length_writePixelState.
Qed.

(** Within a row-major grid, a coordinate and its flat index determine each
    other. *)
Lemma flat_inj w x y x' y' :
  0 <= x < w -> 0 <= x' < w -> y * w + x = y' * w + x' -> x = x' /\ y = y'.
Proof.
  intros Hx Hx' Heq.
  assert (y = y') as -> by nia.
  split; lia.
Qed.

Lemma flat_bounds w h x y :
  0 <= x < w -> 0 <= y < h -> 0 <= y * w + x < w * h.
Proof. intros. nia. Qed.

(** Settles the comparisons of the goal that linear arithmetic decides. *)
Ltac decide_tests :=
  repeat match goal with
  | |- context [(?a =? ?b)] =>
      first [ replace (a =? b) with true by (symmetry; apply Z.eqb_eq; lia)
            | replace (a =? b) with false by (symmetry; apply Z.eqb_neq; lia) ]
  | |- context [(?a <=? ?b)] =>
      replace (a <=? b) with true by (symmetry; apply Z.leb_le; lia)
  | |- context [(?a <? ?b)] =>
      replace (a <? b) with true by (symmetry; apply Z.ltb_lt; lia)
  end.

(** One update of the list, seen as pixels: the targeted pixel takes the
    parsed colour, every other pixel stays. *)
Lemma imagePixel_write w h arr p x y :
  Z.of_nat (length arr) = 4 * w * h ->
  inBounds w h (pixelX p) (pixelY p) ->
  inBounds w h x y ->
  imagePixel (mkImageData (writePixelState w arr p) w h) x y =
    if targets x y p then colorPixel (parseHexColor (pixelColor p))
    else imagePixel (mkImageData arr w h) x y.
Proof.
  intros Hlen [Hpx Hpy] [Hx Hy].
  pose proof (flat_bounds w h _ _ Hpx Hpy) as Hb.
  pose proof (flat_bounds w h _ _ Hx Hy) as Hb'.
  destruct (channels_range (pixelColor p)) as (Hr & Hg & Hbl). cbn zeta in Hr, Hg, Hbl.
  unfold imagePixel, writePixelState, flatIndex. cbn [data iwidth].
  set (c := parseHexColor (pixelColor p)) in *. clearbody c.
  rewrite !typedGet_typedSet, !length_typedSet.
  set (i := 4 * (pixelY p * w + pixelX p)).
  set (j := 4 * (y * w + x)).
  assert (Hi : 0 <= i /\ i + 3 < Z.of_nat (length arr)) by (subst i; lia).
  unfold targets.
  destruct (Z.eqb_spec (pixelX p) x) as [Ex|Ex];
    [destruct (Z.eqb_spec (pixelY p) y) as [Ey|Ey]|]; cbn [andb].
  - assert (j = i) as -> by (subst i j; rewrite Ex, Ey; reflexivity).
    decide_tests. cbn. rewrite !toUint8Clamp_id by lia. reflexivity.
  - assert (y * w + x <> pixelY p * w + pixelX p) by (intros E; apply flat_inj in E; lia).
    subst i j. decide_tests. reflexivity.
  - assert (y * w + x <> pixelY p * w + pixelX p) by (intros E; apply flat_inj in E; lia).
    subst i j. decide_tests. reflexivity.
Qed.

Lemma lastUpdate_snoc x y state p :
  lastUpdate x y (state ++ [p]) = if targets x y p then Some p else lastUpdate x y state.
Proof. unfold lastUpdate. rewrite rev_app_distr. reflexivity. Qed.

(** The whole list, by induction from its end: the last update wins. *)
Lemma imagePixel_fold w h state arr x y :
  Z.of_nat (length arr) = 4 * w * h ->
  Forall (fun p => inBounds w h (pixelX p) (pixelY p)) state ->
  inBounds w h x y ->
  imagePixel (mkImageData (fold_left (writePixelState w) state arr) w h) x y =
    match lastUpdate x y state with
    | Some p => colorPixel (parseHexColor (pixelColor p))
    | None => imagePixel (mkImageData arr w h) x y
    end.
Proof.
  intros Hlen Hall Hxy.
  induction state as [|p state IH] using rev_ind; [reflexivity|].
  apply Forall_app in Hall as [Hall Hp]. apply Forall_cons in Hp as [Hp _].
  rewrite fold_left_app. cbn [fold_left].
  rewrite imagePixel_write, lastUpdate_snoc; try assumption.
  - destruct (targets x y p); [reflexivity | apply IH; assumption].
  - rewrite length_fold_writePixelState. assumption.
Qed.

(** ** Canvases *)

Lemma pixelAt_paint c f x y : pixelAt (paint c f) x y = f x y <$> pixelAt c x y.
Proof.
  unfold pixelAt, paint. cbn [cwidth cheight bitmap].
  destruct ((0 <=? x) && (x <? cwidth c) && (0 <=? y) && (y <? cheight c)) eqn:Hin;
    [|reflexivity].
  rewrite !andb_true_iff in Hin. destruct Hin as [[[Hx0 Hx1] Hy0] Hy1].
  apply Z.leb_le in Hx0, Hy0. apply Z.ltb_lt in Hx1, Hy1.
  rewrite list_lookup_imap.
  rewrite Z2Nat.id by nia.
  replace ((y * cwidth c + x) mod cwidth c) with x
    by (apply Z.mod_unique with (q := y); lia).
  replace ((y * cwidth c + x) / cwidth c) with y
    by (apply Z.div_unique with (r := x); lia).
  reflexivity.
Qed.

Lemma pixelAt_sized w h c x y :
  sized w h c -> inBounds w h x y -> is_Some (pixelAt c x y).
Proof.
  intros (Hw & Hh & Hlen) [Hx Hy]. unfold pixelAt. rewrite Hw, Hh.
  replace ((0 <=? x) && (x <? w) && (0 <=? y) && (y <? h)) with true
    by (symmetry; rewrite !andb_true_iff, !Z.leb_le, !Z.ltb_lt; lia).
  apply lookup_lt_is_Some. rewrite Hlen.
  pose proof (flat_bounds w h x y Hx Hy).
  rewrite <- Z2Nat.inj_mul by lia. apply Z2Nat.inj_lt; lia.
Qed.

Lemma sized_paint w h c f : sized w h c -> sized w h (paint c f).
Proof.
  intros (Hw & Hh & Hlen). unfold sized, paint. cbn [cwidth cheight bitmap].
  rewrite length_imap. auto.
Qed.

Lemma pixelAt_putImageData w h b img x y :
  sized w h b -> iwidth img = w -> iheight img = h -> inBounds w h x y ->
  pixelAt (putImageData b img) x y = Some (imagePixel img x y).
Proof.
  intros Hs Hiw Hih Hxy. unfold putImageData. rewrite pixelAt_paint.
  destruct (pixelAt_sized w h b x y Hs Hxy) as [p ->]. destruct Hxy as [Hx Hy].
  rewrite Hiw, Hih. cbn.
  replace ((x <? w) && (y <? h)) with true
    by (symmetry; rewrite !andb_true_iff, !Z.ltb_lt; lia).
  reflexivity.
Qed.

Lemma imagePixel_zeros n w h x y :
  imagePixel (mkImageData (replicate n 0) w h) x y = transparent.
Proof.
  assert (Hz : forall q, default 0 (typedGet (replicate n 0) q) = 0).
  { intros q. unfold typedGet. destruct (0 <=? q); [|reflexivity].
    destruct (replicate n 0 !! Z.to_nat q) eqn:E; [|reflexivity].
    apply lookup_replicate in E as [-> _]. reflexivity. }
  unfold imagePixel. cbn [data]. rewrite !Hz. reflexivity.
Qed.

(** ** The canvas pair *)

Section Pair.
Context {browser : Browser}.

(** On an initialized pair no step of [writeStateToBuffer] throws, and the
    buffer canvas receives the image. *)
Lemma writeStateToBuffer_run w h this state :
  0 < w -> 0 < h -> initialized w h this ->
  exists b,
    bufferEl this = Some b /\ sized w h b /\
    writeStateToBuffer state this =
      (Ok tt,
       setBufferEl
         (putImageData b
            (mkImageData
               (fold_left (writePixelState w) state (replicate (Z.to_nat (4 * w * h)) 0))
               w h))
         this).
Proof.
  intros Hw Hh (Ew & Eh & d & b & Ed & Eb & Sd & Sb).
  exists b. split; [assumption|]. split; [assumption|].
  unfold writeStateToBuffer, mbind, canvasse_bind, bind, get, lift, modify, nonNull, ret.
  rewrite Ew, Eh.
  unfold pixelDataOf, newUint8ClampedArray.
  assert (Hpos : 0 < 4 * w * h) by nia.
  destruct (Z.ltb_spec (4 * w * h) 0); [lia|].
  unfold newImageData.
  rewrite length_fold_writePixelState, length_replicate, Z2Nat.id by lia.
  replace (4 * w * h) with (w * h * 4) by lia.
  rewrite Z.mod_mul, Z.div_mul by lia.
  destruct (Z.eqb_spec (w * h * 4) 0); [lia|].
  cbn [orb negb]. rewrite Z.eqb_refl. cbn [negb].
  destruct (Z.leb_spec w 0); [lia|].
  replace (w * h) with (h * w) by lia.
  rewrite Z.mod_mul, Z.div_mul by lia.
  rewrite !Z.eqb_refl. cbn [negb].
  rewrite Eb. reflexivity.
Qed.

Lemma writeStateToBuffer_pixels w h this state :
  0 < w -> 0 < h -> initialized w h this ->
  Forall (fun p => inBounds w h (pixelX p) (pixelY p)) state ->
  (exists this' b',
     writeStateToBuffer state this = (Ok tt, this') /\
     bufferEl this' = Some b' /\
     forall x y, inBounds w h x y -> pixelAt b' x y = Some (expectedPixel x y state)).
Proof.
  intros Hw Hh Hinit Hall.
  destruct (writeStateToBuffer_run w h this state Hw Hh Hinit) as (b & Eb & Sb & Erun).
  eexists _, _. split; [exact Erun|]. split; [reflexivity|].
  intros x y Hxy.
  rewrite (pixelAt_putImageData w h) by (assumption || reflexivity).
  f_equal. rewrite imagePixel_fold; try assumption.
  - unfold expectedPixel. destruct (lastUpdate x y state); [reflexivity|].
    apply imagePixel_zeros.
  - rewrite length_replicate, Z2Nat.id by nia. reflexivity.
Qed.

Lemma sized_setFillStyle w h color c : sized w h c -> sized w h (setFillStyle color c).
Proof. unfold setFillStyle. destruct (parseCssColor color); auto. Qed.

Lemma sized_fillRect w h c x y rw rh : sized w h c -> sized w h (fillRect c x y rw rh).
Proof. apply sized_paint. Qed.

Lemma sized_clearRect w h c x y rw rh : sized w h c -> sized w h (clearRect c x y rw rh).
Proof. apply sized_paint. Qed.

Lemma sized_putImageData w h c img : sized w h c -> sized w h (putImageData c img).
Proof. apply sized_paint. Qed.

Lemma drawImage_sized w h dst src dw dh :
  0 < w -> 0 < h -> sized w h src ->
  drawImage dst src dw dh =
    Ok (paint dst (fun px py p => over (sourceAt src dw dh px py) p)).
Proof.
  intros Hw Hh (Ew & Eh & _). unfold drawImage. rewrite Ew, Eh.
  destruct (Z.eqb_spec w 0); [lia|]. destruct (Z.eqb_spec h 0); [lia|]. reflexivity.
Qed.

Lemma sized_blankCanvas w h : sized w h (blankCanvas w h).
Proof. unfold sized, blankCanvas. cbn. rewrite length_replicate. auto. Qed.

(** Unfolds the sequencing of a method down to the object it returns. *)
Ltac run_method :=
  unfold mbind, canvasse_bind, bind, get, lift, modify, nonNull, mret, canvasse_ret, ret;
  cbn [el bufferEl width height isBufferDirty isDisplayDirty
       setEl setBufferEl setIsBufferDirty setIsDisplayDirty fst snd].

Ltac solve_initialized :=
  split; [reflexivity|]; split; [reflexivity|];
  eexists _, _; split; [reflexivity|]; split; [reflexivity|];
  split;
  auto using sized_paint, sized_fillRect, sized_clearRect, sized_setFillStyle,
    sized_putImageData, sized_blankCanvas.

Lemma init_initialized el0 w h this0 : initialized w h (init el0 w h this0).2.
Proof.
  unfold init. run_method. repeat split.
  exists (blankCanvas w h), (blankCanvas w h). auto using sized_blankCanvas.
Qed.

Lemma writeStateToBuffer_initialized w h this state :
  0 < w -> 0 < h -> initialized w h this ->
  exists this', writeStateToBuffer state this = (Ok tt, this') /\ initialized w h this'.
Proof.
  intros Hw Hh Hinit.
  destruct (writeStateToBuffer_run w h this state Hw Hh Hinit) as (b' & Eb' & Sb' & ->).
  destruct Hinit as (Ew & Eh & d & b & Ed & Eb & Sd & Sb).
  rewrite Eb in Eb'. injection Eb' as <-.
  eexists; split; [reflexivity|].
  split; [exact Ew|]. split; [exact Eh|].
  exists d, (putImageData b
    (mkImageData (fold_left (writePixelState w) state (replicate (Z.to_nat (4 * w * h)) 0))
       w h)).
  split; [exact Ed|]. split; [reflexivity|]. split; [exact Sd|].
  apply sized_putImageData, Sb.
Qed.

(** On an initialized pair every call completes and leaves the pair
    initialized. *)
Lemma perform_initialized w h this op :
  0 < w -> 0 < h -> initialized w h this ->
  exists this', perform op this = (Ok tt, this') /\ initialized w h this'.
Proof.
  intros Hw Hh (Ew & Eh & d & b & Ed & Eb & Sd & Sb).
  destruct this as [w0 h0 d0 b0 bd dd]. cbn in Ew, Eh, Ed, Eb. subst w0 h0 d0 b0.
  destruct op as [x y color|x y color|x y rw rh color|x y rw rh|x y color| | |state];
    cbn [perform];
    unfold drawTileAt, drawTileToDisplay, drawRectToDisplay, clearRectFromDisplay,
      drawTileToBuffer, drawBufferToDisplay, drawDisplayToBuffer;
    try (run_method;
         rewrite ?(drawImage_sized w h) by auto using sized_fillRect, sized_setFillStyle;
         eexists; split; [reflexivity|]; solve_initialized).
  apply writeStateToBuffer_initialized; try assumption.
  repeat split. eauto 10.
Qed.

Lemma performAll_initialized w h ops this :
  0 < w -> 0 < h -> initialized w h this -> initialized w h (performAll ops this).
Proof.
  intros Hw Hh. revert this. unfold performAll.
  induction ops as [|op ops IH]; intros this Hinit; cbn [fold_left]; [assumption|].
  destruct (perform_initialized w h this op Hw Hh Hinit) as (this' & -> & Hinit').
  apply IH. assumption.
Qed.

Lemma parseCssColor_hex6 color :
  isHexColor6 color = true ->
  parseCssColor color = Some (colorPixel (parseHexColor color)).
Proof.
  intros Hc. unfold parseCssColor. rewrite (parseHexColor_hex6 _ Hc). reflexivity.
Qed.

Lemma over_opaque src dst : chAlpha src = 255 -> over src dst = src.
Proof. intros E. unfold over. rewrite E. reflexivity. Qed.

Lemma over_clear src dst : chAlpha src = 0 -> over src dst = dst.
Proof. intros E. unfold over. rewrite E. reflexivity. Qed.

Lemma inRect_unit x y : inRect x y 1 1 x y = true.
Proof.
  unfold inRect. rewrite !andb_true_iff, !Z.leb_le, !Z.ltb_lt. lia.
Qed.

Lemma pixelAt_setFillStyle color c x y : pixelAt (setFillStyle color c) x y = pixelAt c x y.
Proof. unfold setFillStyle. destruct (parseCssColor color); reflexivity. Qed.

Lemma pixelAt_drawn w h dst src x y :
  sized w h src ->
  pixelAt (paint dst (fun px py p => over (sourceAt src w h px py) p)) x y =
    (fun p => over (default transparent (pixelAt src x y)) p) <$> pixelAt dst x y.
Proof.
  intros (Ew & Eh & _). rewrite pixelAt_paint. unfold sourceAt.
  rewrite Ew, Eh, !Z.eqb_refl. reflexivity.
Qed.

(** [lastUpdate] finds nothing exactly when no update is for the
    coordinate, and otherwise the update after which none is. *)
Lemma lastUpdate_None x y state :
  lastUpdate x y state = None <-> Forall (fun p => targets x y p = false) state.
Proof.
  unfold lastUpdate. split.
  - intros Hnone. apply Forall_forall. intros p Hp.
    apply (find_none _ _ Hnone). apply in_rev. rewrite rev_involutive.
    apply list_elem_of_In, Hp.
  - intros Hall. destruct (find (targets x y) (rev state)) as [p|] eqn:E; [|reflexivity].
    apply find_some in E as [Hin Ht]. apply in_rev, list_elem_of_In in Hin.
    rewrite Forall_forall in Hall. rewrite (Hall p Hin) in Ht. discriminate.
Qed.

Lemma lastUpdate_Some x y before p after :
  targets x y p = true -> Forall (fun q => targets x y q = false) after ->
  lastUpdate x y (before ++ p :: after) = Some p.
Proof.
  intros Hp Hafter. induction after as [|q after IH] using rev_ind.
  - rewrite lastUpdate_snoc, Hp. reflexivity.
  - apply Forall_app in Hafter as [Hafter Hq]. apply Forall_cons in Hq as [Hq _].
    rewrite app_comm_cons, app_assoc, lastUpdate_snoc, Hq.
    apply IH, Hafter.
Qed.

Lemma expectedPixel_transparent x y state :
  expectedPixel x y state = transparent <->
  Forall (fun p => targets x y p = false) state.
Proof.
  rewrite <- lastUpdate_None. unfold expectedPixel.
  destruct (lastUpdate x y state); split; try reflexivity; discriminate.
Qed.

(** C1. On an initialized pair of [w] x [h] pixels, [w] and [h] positive,
    and for a list of updates whose coordinates all lie in the grid,
    [writeStateToBuffer] completes, and the buffer canvas then shows at each
    coordinate the parsed colour of the last update of the list for that
    coordinate, fully opaque, and transparent black where the list has no
    update.  The array built for the empty list holds [4 * w * h] zero
    bytes.  The call replaces the buffer: whatever list was written by an
    earlier call, the pixels after the later call are those of the later
    list alone. *)
Theorem writeStateToBuffer_materializes w h this state :
  0 < w -> 0 < h -> initialized w h this ->
  Forall (fun p => inBounds w h (pixelX p) (pixelY p)) state ->
  (exists this' b',
     writeStateToBuffer state this = (Ok tt, this') /\
     bufferEl this' = Some b' /\
     forall x y, inBounds w h x y -> pixelAt b' x y = Some (expectedPixel x y state)) /\
  pixelDataOf w h [] = Ok (replicate (Z.to_nat (4 * w * h)) 0) /\
  (forall earlier,
   exists this1 this2 b2,
     writeStateToBuffer earlier this = (Ok tt, this1) /\
     writeStateToBuffer state this1 = (Ok tt, this2) /\
     bufferEl this2 = Some b2 /\
     forall x y, inBounds w h x y -> pixelAt b2 x y = Some (expectedPixel x y state)).
Proof.
  intros Hw Hh Hinit Hall. split_and!.
  - apply writeStateToBuffer_pixels; assumption.
  - unfold pixelDataOf, newUint8ClampedArray.
    destruct (Z.ltb_spec (4 * w * h) 0); [nia|reflexivity].
  - intros earlier.
    destruct (writeStateToBuffer_initialized w h this earlier Hw Hh Hinit)
      as (this1 & E1 & Hinit1).
    destruct (writeStateToBuffer_pixels w h this1 state Hw Hh Hinit1 Hall)
      as (this2 & b2 & E2 & Eb2 & Hpix).
    exists this1, this2, b2. auto.
Qed.

(** C2. On an initialized pair, for a coordinate inside the grid and a
    [#RRGGBB] string, [drawTileToBuffer] followed by [drawBufferToDisplay]
    completes, and the display canvas then shows at that coordinate the
    colour that [parseHexColor] reads from the string, fully opaque. *)
Theorem drawTileToBuffer_then_flush w h this x y color :
  0 < w -> 0 < h -> initialized w h this ->
  inBounds w h x y -> isHexColor6 color = true ->
  exists this1 this2 d,
    drawTileToBuffer x y color this = (Ok tt, this1) /\
    drawBufferToDisplay this1 = (Ok tt, this2) /\
    el this2 = Some d /\
    pixelAt d x y = Some (colorPixel (parseHexColor color)).
Proof.
  intros Hw Hh (Ew & Eh & d & b & Ed & Eb & Sd & Sb) Hxy Hc.
  destruct this as [w0 h0 d0 b0 bd dd]. cbn in Ew, Eh, Ed, Eb. subst w0 h0 d0 b0.
  eexists _, _, _.
  split; [unfold drawTileToBuffer; run_method; reflexivity|].
  assert (Sb' : sized w h (fillRect (setFillStyle color b) x y 1 1))
    by auto using sized_fillRect, sized_setFillStyle.
  split; [unfold drawBufferToDisplay; run_method;
          rewrite (drawImage_sized w h) by assumption; reflexivity|].
  split; [reflexivity|].
  rewrite (pixelAt_drawn w h) by assumption.
  destruct (pixelAt_sized w h d x y Sd Hxy) as [pd ->].
  unfold fillRect at 1. rewrite pixelAt_paint, pixelAt_setFillStyle.
  destruct (pixelAt_sized w h b x y Sb Hxy) as [pb ->].
  rewrite inRect_unit. unfold setFillStyle. rewrite (parseCssColor_hex6 _ Hc).
  cbn [fmap option_fmap option_map default from_option fillStyle id].
  rewrite !over_opaque by reflexivity. reflexivity.
Qed.

(** C3, as amended. On an initialized pair, [drawDisplayToBuffer] followed
    by [drawBufferToDisplay] completes; a display pixel [p] over a buffer
    pixel [q] becomes [p] composited over [q], composited over [p].  A fully
    opaque display pixel is therefore unchanged, while a fully transparent
    one takes the buffer's pixel where that one is opaque. *)
Theorem roundtrip_keeps_opaque_pixels w h this :
  0 < w -> 0 < h -> initialized w h this ->
  exists this1 this2 d b d2,
    el this = Some d /\ bufferEl this = Some b /\
    drawDisplayToBuffer this = (Ok tt, this1) /\
    drawBufferToDisplay this1 = (Ok tt, this2) /\
    el this2 = Some d2 /\
    forall x y p q,
      pixelAt d x y = Some p -> pixelAt b x y = Some q ->
      pixelAt d2 x y = Some (over (over p q) p) /\
      (chAlpha p = 255 -> pixelAt d2 x y = Some p) /\
      (chAlpha p = 0 -> chAlpha q = 255 -> pixelAt d2 x y = Some q).
Proof.
  intros Hw Hh (Ew & Eh & d & b & Ed & Eb & Sd & Sb).
  destruct this as [w0 h0 d0 b0 bd dd]. cbn in Ew, Eh, Ed, Eb. subst w0 h0 d0 b0.
  exists (setIsDisplayDirty false
            (setBufferEl (paint b (fun px py p => over (sourceAt d w h px py) p))
               (mkCanvasse w h (Some d) (Some b) bd dd))).
  eexists _, d, b, _.
  split; [reflexivity|]. split; [reflexivity|].
  split; [unfold drawDisplayToBuffer; run_method;
          rewrite (drawImage_sized w h) by assumption; reflexivity|].
  assert (Sb' : sized w h (paint b (fun px py p => over (sourceAt d w h px py) p)))
    by auto using sized_paint.
  split; [unfold drawBufferToDisplay; run_method;
          rewrite (drawImage_sized w h) by assumption; reflexivity|].
  split; [reflexivity|].
  intros x y p q Hp Hq.
  assert (Hd2 : pixelAt
            (paint d (fun px py p0 =>
               over (sourceAt (paint b (fun px0 py0 p1 => over (sourceAt d w h px0 py0) p1))
                       w h px py) p0)) x y = Some (over (over p q) p)).
  { rewrite (pixelAt_drawn w h) by assumption.
    rewrite (pixelAt_drawn w h) by assumption.
    rewrite Hp, Hq. reflexivity. }
  split; [exact Hd2|]. split.
  - intros Ha. rewrite Hd2. f_equal.
    rewrite (over_opaque p q Ha). apply over_opaque, Ha.
  - intros Ha Hb. rewrite Hd2. f_equal.
    rewrite (over_clear p q Ha). apply over_opaque, Hb.
Qed.

(** C4. For every object and every [(x, y, color)], [drawTileAt] ends with
    the same outcome and the same object (both canvases, both dirty flags)
    as [drawTileToBuffer] followed, when it completes, by
    [drawBufferToDisplay]. *)
Theorem drawTileAt_is_write_then_flush x y color this :
  drawTileAt x y color this = writeThenFlush x y color this.
Proof.
  unfold drawTileAt, writeThenFlush, mbind, canvasse_bind, bind.
  destruct (drawTileToBuffer x y color this) as [[[]|e] this']; reflexivity.
Qed.

(** C5. After [init] with positive [w] and [h], and after any run of calls
    of the module, the display canvas and the buffer canvas both measure
    [w] x [h]. *)
Theorem dimensions_agree el0 w h this0 ops :
  0 < w -> 0 < h ->
  exists d b,
    el (performAll ops (init el0 w h this0).2) = Some d /\
    bufferEl (performAll ops (init el0 w h this0).2) = Some b /\
    cwidth d = w /\ cheight d = h /\ cwidth b = w /\ cheight b = h.
Proof.
  intros Hw Hh.
  destruct (performAll_initialized w h ops (init el0 w h this0).2 Hw Hh
              (init_initialized el0 w h this0))
    as (_ & _ & d & b & Ed & Eb & (Dw & Dh & _) & (Bw & Bh & _)).
  exists d, b. auto 10.
Qed.

(** C6, as amended. [init] does not validate its arguments: called with a
    width or a height that is not positive, it completes, records both
    values, and installs the display and the buffer canvas.  Drawing a tile
    to the buffer of such a pair completes; [writeStateToBuffer] throws for
    every list and leaves the object as it was. *)
Theorem init_does_not_validate el0 w h this :
  w <= 0 \/ h <= 0 ->
  exists this' d b,
    init el0 w h this = (Ok tt, this') /\
    width this' = w /\ height this' = h /\
    el this' = Some d /\ bufferEl this' = Some b /\
    (forall x y color, (drawTileToBuffer x y color this').1 = Ok tt) /\
    (forall state, exists e, writeStateToBuffer state this' = (Throw e, this')).
Proof.
  intros Hwh. eexists _, _, _.
  split; [reflexivity|]. cbn [width height el bufferEl].
  split_and!; try reflexivity.
  intros state. unfold writeStateToBuffer. run_method.
  unfold pixelDataOf, newUint8ClampedArray.
  destruct (Z.ltb_spec (4 * w * h) 0) as [Hneg|Hnn]; [eexists; reflexivity|].
  unfold newImageData.
  rewrite length_fold_writePixelState, length_replicate, Z2Nat.id by assumption.
  destruct (Z.eqb_spec (4 * w * h) 0) as [Hz|Hnz]; [eexists; reflexivity|].
  cbn [orb].
  destruct (negb (4 * w * h mod 4 =? 0)); [eexists; reflexivity|].
  destruct (Z.leb_spec w 0); [eexists; reflexivity|].
  exfalso. nia.
Qed.

(** ** The index in doubles *)

(** A safe integer is its own double, so sums and products that stay safe
    are exact. *)
Lemma toNumber_safe z : safeInteger z -> toNumber z = Int z.
Proof.
  unfold safeInteger. change (2 ^ 53 - 1) with 9007199254740991. intros Hz.
  unfold toNumber, roundMagnitude. change (2 ^ 53) with 9007199254740992.
  destruct (Z.leb_spec 0 z).
  - destruct (Z.ltb_spec z 9007199254740992); [reflexivity|lia].
  - destruct (Z.ltb_spec (- z) 9007199254740992); [|lia].
    rewrite Z.opp_involutive. reflexivity.
Qed.

Lemma numAdd_safe x y : safeInteger (x + y) -> numAdd (Int x) (Int y) = Int (x + y).
Proof. apply toNumber_safe. Qed.

Lemma numMul_safe x y : safeInteger (x * y) -> numMul (Int x) (Int y) = Int (x * y).
Proof. apply toNumber_safe. Qed.

Lemma safeInteger_between a b z : safeInteger a -> safeInteger b -> a <= z <= b -> safeInteger z.
Proof. unfold safeInteger. lia. Qed.

(** Where no step rounds, the doubles of the source compute the flat index
    of the model, and the callback writes the bytes the model writes. *)
Lemma flatIndexNumber_exact w x y :
  exactIndex w x y -> flatIndexNumber w x y = Int (flatIndex w x y).
Proof.
  intros (_ & _ & _ & Hyw & Hi & _). unfold flatIndexNumber, flatIndex in *.
  rewrite numMul_safe by exact Hyw.
  rewrite numAdd_safe by (unfold safeInteger in *; lia).
  apply numMul_safe, Hi.
Qed.

Lemma writePixelStateNumber_exact w pixelData p :
  exactIndex w (pixelX p) (pixelY p) ->
  writePixelStateNumber w pixelData p = writePixelState w pixelData p.
Proof.
  intros Hex. unfold writePixelStateNumber, writePixelState.
  rewrite (flatIndexNumber_exact _ _ _ Hex).
  destruct Hex as (_ & _ & _ & _ & Hi & Hi3).
  set (i := flatIndex w (pixelX p) (pixelY p)) in *.
  rewrite !numAdd_safe by (apply (safeInteger_between i (i + 3)); (assumption || lia)).
  reflexivity.
Qed.

Lemma fold_writePixelStateNumber_exact w state pixelData :
  Forall (fun p => exactIndex w (pixelX p) (pixelY p)) state ->
  fold_left (writePixelStateNumber w) state pixelData
    = fold_left (writePixelState w) state pixelData.
Proof.
  intros Hall. revert pixelData.
  induction Hall as [|p state Hp _ IH]; intros pixelData; cbn [fold_left]; [reflexivity|].
  rewrite (writePixelStateNumber_exact _ _ _ Hp). apply IH.
Qed.

(** C7, as amended. With positive [w] and [h], and a coordinate whose index
    the doubles of the source compute without rounding, that index is the
    flat index [4 * (y * w + x)], and it lies in the array exactly when
    [0 <= y * w + x < w * h].  So an update whose [x] is inside the row and
    whose [y] is outside the grid has its index outside the array, and its
    four writes change nothing. *)
Theorem flatIndex_range w h x y :
  0 < w -> 0 < h -> exactIndex w x y ->
  flatIndexNumber w x y = Int (flatIndex w x y) /\
  ((0 <= flatIndex w x y < 4 * w * h) <-> (0 <= y * w + x < w * h)) /\
  (0 <= x < w -> ~ (0 <= y < h) -> ~ (0 <= flatIndex w x y < 4 * w * h)) /\
  (forall pixelData color,
     Z.of_nat (length pixelData) = 4 * w * h ->
     0 <= x < w -> ~ (0 <= y < h) ->
     writePixelStateNumber w pixelData (Pixel x y color) = pixelData).
Proof.
  intros Hw Hh Hex.
  split; [apply flatIndexNumber_exact, Hex|].
  unfold flatIndex.
  assert (Hout : 0 <= x < w -> ~ (0 <= y < h) -> ~ (0 <= 4 * (y * w + x) < 4 * w * h))
    by (intros Hx Hy; nia).
  split_and!.
  - replace (4 * w * h) with (4 * (w * h)) by ring. lia.
  - exact Hout.
  - intros pixelData color Hlen Hx Hy. specialize (Hout Hx Hy).
    rewrite writePixelStateNumber_exact by exact Hex.
    unfold writePixelState, flatIndex. cbn [pixelX pixelY].
    assert (Hskip : forall arr k v,
              length arr = length pixelData -> 0 <= k < 4 ->
              typedSet arr (4 * (y * w + x) + k) v = arr).
    { intros arr k v Harr Hk. unfold typedSet. rewrite Harr, Hlen.
      destruct (Z.leb_spec 0 (4 * (y * w + x) + k)); [|reflexivity].
      destruct (Z.ltb_spec (4 * (y * w + x) + k) (4 * w * h)); [|reflexivity].
      exfalso. apply Hout. lia. }
    replace (typedSet pixelData (4 * (y * w + x)))
      with (typedSet pixelData (4 * (y * w + x) + 0)) by (f_equal; lia).
    rewrite !Hskip by first [lia | rewrite ?length_typedSet; reflexivity]. reflexivity.
Qed.

(** C8. Whatever the list and whether or not the call completes,
    [writeStateToBuffer] leaves the display canvas, the fields [width] and
    [height] and both dirty flags as they were; [drawTileToBuffer], when it
    completes, sets [isBufferDirty]. *)
Theorem writeStateToBuffer_frame this state :
  el (writeStateToBuffer state this).2 = el this /\
  width (writeStateToBuffer state this).2 = width this /\
  height (writeStateToBuffer state this).2 = height this /\
  isBufferDirty (writeStateToBuffer state this).2 = isBufferDirty this /\
  isDisplayDirty (writeStateToBuffer state this).2 = isDisplayDirty this /\
  (forall x y color this',
     drawTileToBuffer x y color this = (Ok tt, this') -> isBufferDirty this' = true).
Proof.
  unfold writeStateToBuffer. run_method.
  destruct (pixelDataOf (width this) (height this) state) as [pixelData|e];
    [|split_and!; try reflexivity].
  - destruct (newImageData pixelData (width this) (height this)) as [img|e];
      [|split_and!; try reflexivity].
    + destruct (bufferEl this) as [b|] eqn:Eb; split_and!; try reflexivity.
      all: intros x y color this'; unfold drawTileToBuffer; run_method; rewrite Eb;
        run_method; intros [= <-]; reflexivity || discriminate.
    + intros x y color this'; unfold drawTileToBuffer; run_method.
      destruct (bufferEl this); run_method; intros [= <-]; reflexivity.
  - intros x y color this'; unfold drawTileToBuffer; run_method.
    destruct (bufferEl this); run_method; intros [= <-]; reflexivity.
Qed.

End Pair.

(** ** bindEvents and hijack *)

Lemma addEventListener_keeps target type cb c l :
  l ∈ target -> l ∈ addEventListener target type cb c.
Proof.
  intros Hl. unfold addEventListener. case_decide; [assumption|].
  apply elem_of_app. left. assumption.
Qed.

Lemma addEventListener_adds target type cb c :
  mkListener type cb c ∈ addEventListener target type cb c.
Proof.
  unfold addEventListener. case_decide; [assumption|].
  apply elem_of_app. right. apply list_elem_of_singleton. reflexivity.
Qed.

Lemma addEventListener_inv target type cb c l :
  l ∈ addEventListener target type cb c -> l ∈ target \/ l = mkListener type cb c.
Proof.
  unfold addEventListener. case_decide; [auto|].
  intros [Hl|Hl%list_elem_of_singleton]%elem_of_app; auto.
Qed.

Lemma property_key eventsDict event handler :
  property eventsDict event = Some handler -> event ∈ keysOf eventsDict.
Proof.
  unfold property, keysOf. intros Hp.
  apply fmap_Some in Hp as ([i [k v]] & Hfind & ->).
  apply list_find_Some in Hfind as (Hi & Hk & _). cbn in Hk. subst k.
  apply list_elem_of_fmap. exists (event, v). split; [reflexivity|].
  eapply list_elem_of_lookup_2. exact Hi.
Qed.

Section Binding.
Variable eventsDict : list (string * nat).

Lemma bind_keeps keys target l : l ∈ target -> l ∈ fold_left (bindStep eventsDict) keys target.
Proof.
  revert target. induction keys as [|k keys IH]; intros target Hl; cbn; [assumption|].
  apply IH. unfold bindStep. destruct (property eventsDict k); [|assumption].
  apply addEventListener_keeps, Hl.
Qed.

Lemma bind_adds keys target event handler :
  event ∈ keys -> property eventsDict event = Some handler ->
  mkListener event handler true ∈ fold_left (bindStep eventsDict) keys target.
Proof.
  revert target. induction keys as [|k keys IH]; intros target Hin Hp.
  - inversion Hin.
  - cbn. apply elem_of_cons in Hin as [<-|Hin].
    + apply bind_keeps. unfold bindStep. rewrite Hp. apply addEventListener_adds.
    + apply IH; assumption.
Qed.

Lemma bind_inv keys target l :
  l ∈ fold_left (bindStep eventsDict) keys target ->
  l ∈ target \/
  (capture l = true /\ property eventsDict (eventType l) = Some (callback l)).
Proof.
  revert target. induction keys as [|k keys IH]; intros target Hl; cbn in Hl; [auto|].
  apply IH in Hl as [Hl|Hl]; [|auto].
  unfold bindStep in Hl. destruct (property eventsDict k) as [handler|] eqn:Hp; [|auto].
  apply addEventListener_inv in Hl as [Hl| ->]; auto.
Qed.
End Binding.

(** C9. Whatever [useCapture] is, [bindEvents] returns what it returns
    when the argument is omitted; every handler of the dictionary is
    registered with capture [true]; and every listener it adds has capture
    [true] and is a handler of the dictionary. *)
Theorem bindEvents_always_captures target eventsDict useCapture :
  bindEvents target eventsDict useCapture = bindEvents target eventsDict None /\
  (forall event handler,
     property eventsDict event = Some handler ->
     mkListener event handler true ∈ bindEvents target eventsDict useCapture) /\
  (forall l,
     l ∈ bindEvents target eventsDict useCapture ->
     l ∈ target \/
     (capture l = true /\ property eventsDict (eventType l) = Some (callback l))).
Proof.
  split_and!.
  - reflexivity.
  - intros event handler Hp. apply bind_adds; [|assumption].
    eapply property_key, Hp.
  - intros l. apply bind_inv.
Qed.

(** C10. After [hijack(target, methodName, fn)] the property [methodName]
    holds the replacement; when the replacement returns, it returns
    [undefined]: whatever value [fn] returns is dropped, and only an
    exception of [fn] passes through. *)
Theorem hijack_returns_undefined native target methodName g args obj :
  let original := default VUndefined (target !! methodName) in
  let replacement := Hijacked original (VFunction g) in
  hijack target methodName (VFunction g) !! methodName = Some (VFunction replacement) /\
  (forall v, (applyFn native replacement args obj).1 = Ok v -> v = VUndefined) /\
  (forall res obj',
     applyFn native g args (<["targetMethod" := original]> obj) = (Ok res, obj') ->
     applyFn native replacement args obj = (Ok VUndefined, delete "targetMethod" obj')) /\
  (forall e obj',
     applyFn native g args (<["targetMethod" := original]> obj) = (Throw e, obj') ->
     applyFn native replacement args obj = (Throw e, obj')).
Proof.
  intros original replacement. split_and!.
  - unfold hijack. apply lookup_insert_eq.
  - intros v. subst replacement. cbn [applyFn].
    destruct (applyFn native g args _) as [[res|e] obj']; cbn; congruence.
  - intros res obj' Hg. subst replacement. cbn [applyFn]. rewrite Hg. reflexivity.
  - intros e obj' Hg. subst replacement. cbn [applyFn]. rewrite Hg. reflexivity.
Qed.

(** * Further properties *)

(** ** More on the colour parser *)

(** ToInt32 leaves a signed 32-bit integer as it is, and keeps every
    integer modulo 2^32. *)
Lemma toInt32_signed v : - 2 ^ 31 <= v < 2 ^ 31 -> toInt32 (Int v) = v.
Proof.
  change (2 ^ 31) with 2147483648. intros Hv.
  unfold toInt32. change (2 ^ 32) with 4294967296. change (2 ^ 31) with 2147483648.
  destruct (Z.leb_spec 2147483648 (v mod 4294967296)); Z.div_mod_to_equations; lia.
Qed.

Lemma toInt32_congruent v :
  - 2147483648 <= toInt32 (Int v) < 2147483648 /\
  exists k, toInt32 (Int v) = v + k * 4294967296.
Proof.
  unfold toInt32. change (2 ^ 32) with 4294967296. change (2 ^ 31) with 2147483648.
  destruct (Z.leb_spec 2147483648 (v mod 4294967296)).
  - split; [Z.div_mod_to_equations; lia|].
    exists (- (v / 4294967296) - 1). Z.div_mod_to_equations; lia.
  - split; [Z.div_mod_to_equations; lia|].
    exists (- (v / 4294967296)). Z.div_mod_to_equations; lia.
Qed.

(** X1. Whatever string it is given, [parseHexColor] returns three bytes. *)
Theorem parseHexColor_channels_are_bytes hexColor :
  0 <= red (parseHexColor hexColor) <= 255 /\
  0 <= green (parseHexColor hexColor) <= 255 /\
  0 <= blue (parseHexColor hexColor) <= 255.
Proof. exact (channels_range hexColor). Qed.

Lemma parseHexColor_of_parseInt hexColor :
  parseHexColor hexColor =
    match parseInt16 (slice1 hexColor) with
    | Int v => mkColor ((v / 65536) mod 256) ((v / 256) mod 256) (v mod 256)
    | NaN | Infinity _ => mkColor 0 0 0
    end.
Proof.
  unfold parseHexColor.
  destruct (parseInt16 (slice1 hexColor)) as [| |v]; [reflexivity..|].
  unfold bitand, sar. change (16 mod 32) with 16. change (8 mod 32) with 8.
  destruct (toInt32_congruent v) as (Hr & k & Hk).
  set (t := toInt32 (Int v)) in *. clearbody t.
  rewrite !shiftr_div by lia. change (2 ^ 16) with 65536. change (2 ^ 8) with 256.
  rewrite !toInt32_signed
    by (change (2 ^ 31) with 2147483648; Z.div_mod_to_equations; lia).
  rewrite !land_255. subst t.
  f_equal; Z.div_mod_to_equations; lia.
Qed.

(** X2. The channels are the three low bytes of the integer that
    [parseInt] reads, in two's complement, whatever its sign and size; a
    string that [parseInt] does not read as a finite number is black. *)
Theorem parseHexColor_reads_low_bytes hexColor :
  parseHexColor hexColor =
    match parseInt16 (slice1 hexColor) with
    | Int v => mkColor ((v / 65536) mod 256) ((v / 256) mod 256) (v mod 256)
    | NaN | Infinity _ => mkColor 0 0 0
    end.
Proof. exact (parseHexColor_of_parseInt hexColor). Qed.

(** X3. On the three-digit shorthand the parser and the browser part ways:
    [parseHexColor] reads the digits as one number of twelve bits, the
    browser doubles each digit. *)
Theorem parseHexColor_shorthand c0 c1 c2 c3 d1 d2 d3 :
  hexDigit c1 = Some d1 -> hexDigit c2 = Some d2 -> hexDigit c3 = Some d3 ->
  parseHexColor (String c0 (String c1 (String c2 (String c3 EmptyString))))
    = mkColor 0 d1 (16 * d2 + d3) /\
  (code c0 = 35 ->
   cssHexColor (String c0 (String c1 (String c2 (String c3 EmptyString))))
     = Some (RGBA (17 * d1) (17 * d2) (17 * d3) 255)).
Proof.
  intros H1 H2 H3.
  destruct (hexDigit_char _ _ H1) as (R1 & W1 & M1 & P1 & _).
  destruct (hexDigit_char _ _ H2) as (R2 & _ & _ & _ & X2 & X2').
  destruct (hexDigit_char _ _ H3) as (R3 & _).
  split.
  - rewrite parseHexColor_of_parseInt.
    unfold parseInt16, slice1.
    cbn [trimStart]. rewrite W1. cbn [stripSign]. rewrite M1, P1.
    cbn [stripHexPrefix]. rewrite X2, X2'. cbn [orb]. rewrite andb_false_r.
    cbn [hexPrefix]. rewrite H1, H2, H3.
    unfold digitsValue. cbn [fold_left].
    rewrite toNumber_small by (change (2 ^ 31) with 2147483648; lia).
    f_equal; Z.div_mod_to_equations; lia.
  - intros Hc0. unfold cssHexColor. rewrite Hc0. cbn [Z.eqb Pos.eqb].
    cbn [list_ascii_of_string mapM]. rewrite H1, H2, H3. reflexivity.
Qed.

(** ** More on the canvas pair *)

Section PairCalls.
Context {browser : Browser}.

(** Unfolds the sequencing of a method down to the object it returns. *)
Ltac run_call :=
  unfold mbind, canvasse_bind, bind, get, lift, modify, nonNull, mret, canvasse_ret, ret;
  cbn [el bufferEl width height isBufferDirty isDisplayDirty
       setEl setBufferEl setIsBufferDirty setIsDisplayDirty fst snd].

Lemma inRect_spec x y w h px py :
  0 <= w -> 0 <= h ->
  inRect x y w h px py = true <-> (x <= px < x + w /\ y <= py < y + h).
Proof.
  intros Hw Hh. unfold inRect.
  rewrite !andb_true_iff, !Z.leb_le, !Z.ltb_lt. lia.
Qed.

Lemma inRect_unit_spec x y px py : inRect x y 1 1 px py = true <-> (px = x /\ py = y).
Proof. rewrite inRect_spec by lia. lia. Qed.

Lemma pixelAt_fillRect c x y w h px py :
  pixelAt (fillRect c x y w h) px py =
    (fun p => if inRect x y w h px py then over (fillStyle c) p else p) <$> pixelAt c px py.
Proof. unfold fillRect. apply pixelAt_paint. Qed.

Lemma pixelAt_clearRect c x y w h px py :
  pixelAt (clearRect c x y w h) px py =
    (fun p => if inRect x y w h px py then transparent else p) <$> pixelAt c px py.
Proof. unfold clearRect. apply pixelAt_paint. Qed.

Lemma fillStyle_hex6 color c :
  isHexColor6 color = true ->
  fillStyle (setFillStyle color c) = colorPixel (parseHexColor color).
Proof.
  intros Hc. unfold setFillStyle. rewrite (parseCssColor_hex6 _ Hc). reflexivity.
Qed.

(** A tile drawn on a canvas: the pixel under it takes the fill colour
    composited over what was there, every other pixel stays. *)
Lemma pixelAt_tile color c x y px py :
  pixelAt (fillRect (setFillStyle color c) x y 1 1) px py =
    (fun p => if inRect x y 1 1 px py then over (fillStyle (setFillStyle color c)) p else p)
      <$> pixelAt c px py.
Proof. rewrite pixelAt_fillRect, pixelAt_setFillStyle. reflexivity. Qed.

Lemma pixelAt_tile_other color c x y px py :
  (px, py) <> (x, y) ->
  pixelAt (fillRect (setFillStyle color c) x y 1 1) px py = pixelAt c px py.
Proof.
  intros Hne. rewrite pixelAt_tile.
  destruct (inRect x y 1 1 px py) eqn:E.
  - apply inRect_unit_spec in E as [-> ->]. congruence.
  - destruct (pixelAt c px py); reflexivity.
Qed.

Lemma pixelAt_tile_hex6 w h color c x y :
  sized w h c -> inBounds w h x y -> isHexColor6 color = true ->
  pixelAt (fillRect (setFillStyle color c) x y 1 1) x y
    = Some (colorPixel (parseHexColor color)).
Proof.
  intros Sc Hxy Hc. rewrite pixelAt_tile, inRect_unit, (fillStyle_hex6 _ _ Hc).
  destruct (pixelAt_sized w h c x y Sc Hxy) as [p ->]. reflexivity.
Qed.

(** X4. On an initialized pair, [drawTileToDisplay] with a [#RRGGBB]
    colour at a coordinate inside the grid completes and paints that one
    display pixel: every other display pixel and the whole buffer canvas
    stay, [isDisplayDirty] is set and [isBufferDirty] is left alone. *)
Theorem drawTileToDisplay_paints_one_pixel w h this x y color :
  initialized w h this -> inBounds w h x y -> isHexColor6 color = true ->
  exists this' d d',
    el this = Some d /\
    drawTileToDisplay x y color this = (Ok tt, this') /\
    el this' = Some d' /\
    pixelAt d' x y = Some (colorPixel (parseHexColor color)) /\
    (forall px py, (px, py) <> (x, y) -> pixelAt d' px py = pixelAt d px py) /\
    bufferEl this' = bufferEl this /\
    isDisplayDirty this' = true /\
    isBufferDirty this' = isBufferDirty this.
Proof.
  intros (Ew & Eh & d & b & Ed & Eb & Sd & Sb) Hxy Hc.
  destruct this as [w0 h0 d0 b0 bd dd]. cbn in Ew, Eh, Ed, Eb. subst w0 h0 d0 b0.
  eexists _, d, _. split; [reflexivity|].
  split; [unfold drawTileToDisplay; run_call; reflexivity|].
  split; [reflexivity|].
  split; [eapply pixelAt_tile_hex6; eassumption|].
  split; [intros px py Hne; apply pixelAt_tile_other, Hne|].
  repeat split.
Qed.

(** X5. Likewise [drawTileToBuffer] paints one buffer pixel and leaves
    every other buffer pixel and the whole display canvas as they were. *)
Theorem drawTileToBuffer_paints_one_pixel w h this x y color :
  initialized w h this -> inBounds w h x y -> isHexColor6 color = true ->
  exists this' b b',
    bufferEl this = Some b /\
    drawTileToBuffer x y color this = (Ok tt, this') /\
    bufferEl this' = Some b' /\
    pixelAt b' x y = Some (colorPixel (parseHexColor color)) /\
    (forall px py, (px, py) <> (x, y) -> pixelAt b' px py = pixelAt b px py) /\
    el this' = el this /\
    isBufferDirty this' = true /\
    isDisplayDirty this' = isDisplayDirty this.
Proof.
  intros (Ew & Eh & d & b & Ed & Eb & Sd & Sb) Hxy Hc.
  destruct this as [w0 h0 d0 b0 bd dd]. cbn in Ew, Eh, Ed, Eb. subst w0 h0 d0 b0.
  eexists _, b, _. split; [reflexivity|].
  split; [unfold drawTileToBuffer; run_call; reflexivity|].
  split; [reflexivity|].
  split; [eapply pixelAt_tile_hex6; eassumption|].
  split; [intros px py Hne; apply pixelAt_tile_other, Hne|].
  repeat split.
Qed.

(** X6. A tile outside the grid is clipped away: whatever the colour
    string, [drawTileToBuffer] and [drawTileToDisplay] then change no pixel
    of either canvas, and still set their dirty flag. *)
Theorem tile_outside_the_grid_changes_no_pixel this d b x y color :
  el this = Some d -> bufferEl this = Some b ->
  ~ inBounds (cwidth b) (cheight b) x y -> ~ inBounds (cwidth d) (cheight d) x y ->
  (exists this' b',
     drawTileToBuffer x y color this = (Ok tt, this') /\
     bufferEl this' = Some b' /\ el this' = Some d /\
     isBufferDirty this' = true /\
     forall px py, pixelAt b' px py = pixelAt b px py) /\
  (exists this' d',
     drawTileToDisplay x y color this = (Ok tt, this') /\
     el this' = Some d' /\ bufferEl this' = Some b /\
     isDisplayDirty this' = true /\
     forall px py, pixelAt d' px py = pixelAt d px py).
Proof.
  intros Ed Eb Hb Hd.
  destruct this as [w0 h0 d0 b0 bd dd]. cbn in Ed, Eb. subst d0 b0.
  assert (Hout : forall c px py,
            ~ inBounds (cwidth c) (cheight c) x y ->
            pixelAt (fillRect (setFillStyle color c) x y 1 1) px py = pixelAt c px py).
  { intros c px py Hc. rewrite pixelAt_tile.
    destruct (inRect x y 1 1 px py) eqn:E; [|destruct (pixelAt c px py); reflexivity].
    apply inRect_unit_spec in E as [-> ->].
    unfold pixelAt.
    destruct ((0 <=? x) && (x <? cwidth c) && (0 <=? y) && (y <? cheight c)) eqn:Hin;
      [|reflexivity].
    exfalso. apply Hc. unfold inBounds.
    rewrite !andb_true_iff, !Z.leb_le, !Z.ltb_lt in Hin. lia. }
  split.
  - eexists _, _. split; [unfold drawTileToBuffer; run_call; reflexivity|].
    repeat split. intros px py. apply Hout, Hb.
  - eexists _, _. split; [unfold drawTileToDisplay; run_call; reflexivity|].
    repeat split. intros px py. apply Hout, Hd.
Qed.

(** X7. [drawRectToDisplay] with a [#RRGGBB] colour and a width and a
    height that are not negative paints the display pixels of the
    rectangle, as far as it lies on the canvas, and no other; a rectangle
    without width or height paints nothing.  The buffer canvas stays. *)
Theorem drawRectToDisplay_paints_the_rectangle this d x y rw rh color :
  el this = Some d -> 0 <= rw -> 0 <= rh -> isHexColor6 color = true ->
  exists this' d',
    drawRectToDisplay x y rw rh color this = (Ok tt, this') /\
    el this' = Some d' /\
    bufferEl this' = bufferEl this /\
    isDisplayDirty this' = true /\
    (forall px py p,
       pixelAt d px py = Some p ->
       x <= px < x + rw /\ y <= py < y + rh ->
       pixelAt d' px py = Some (colorPixel (parseHexColor color))) /\
    (forall px py,
       ~ (x <= px < x + rw /\ y <= py < y + rh) ->
       pixelAt d' px py = pixelAt d px py).
Proof.
  intros Ed Hrw Hrh Hc.
  destruct this as [w0 h0 d0 b0 bd dd]. cbn in Ed. subst d0.
  eexists _, _. split; [unfold drawRectToDisplay; run_call; reflexivity|].
  split; [reflexivity|]. split; [reflexivity|]. split; [reflexivity|].
  split.
  - intros px py p Hp Hin. rewrite pixelAt_fillRect, pixelAt_setFillStyle, Hp.
    apply (inRect_spec x y rw rh px py Hrw Hrh) in Hin. rewrite Hin.
    rewrite (fillStyle_hex6 _ _ Hc). reflexivity.
  - intros px py Hout. rewrite pixelAt_fillRect, pixelAt_setFillStyle.
    destruct (inRect x y rw rh px py) eqn:E.
    + apply (inRect_spec x y rw rh px py Hrw Hrh) in E. contradiction.
    + destruct (pixelAt d px py); reflexivity.
Qed.

(** X8. [clearRectFromDisplay] makes the display pixels of the rectangle
    transparent black and touches no other pixel, nor the buffer canvas. *)
Theorem clearRectFromDisplay_clears_the_rectangle this d x y rw rh :
  el this = Some d -> 0 <= rw -> 0 <= rh ->
  exists this' d',
    clearRectFromDisplay x y rw rh this = (Ok tt, this') /\
    el this' = Some d' /\
    bufferEl this' = bufferEl this /\
    isDisplayDirty this' = true /\
    (forall px py p,
       pixelAt d px py = Some p ->
       x <= px < x + rw /\ y <= py < y + rh ->
       pixelAt d' px py = Some transparent) /\
    (forall px py,
       ~ (x <= px < x + rw /\ y <= py < y + rh) ->
       pixelAt d' px py = pixelAt d px py).
Proof.
  intros Ed Hrw Hrh.
  destruct this as [w0 h0 d0 b0 bd dd]. cbn in Ed. subst d0.
  eexists _, _. split; [unfold clearRectFromDisplay; run_call; reflexivity|].
  split; [reflexivity|]. split; [reflexivity|]. split; [reflexivity|].
  split.
  - intros px py p Hp Hin. rewrite pixelAt_clearRect, Hp.
    apply (inRect_spec x y rw rh px py Hrw Hrh) in Hin. rewrite Hin. reflexivity.
  - intros px py Hout. rewrite pixelAt_clearRect.
    destruct (inRect x y rw rh px py) eqn:E.
    + apply (inRect_spec x y rw rh px py Hrw Hrh) in E. contradiction.
    + destruct (pixelAt d px py); reflexivity.
Qed.


(** X9. On an initialized pair [drawBufferToDisplay] completes and draws
    the buffer over the display: where the buffer pixel is opaque the
    display shows it afterwards, so what was drawn there on the display
    alone is lost; where the buffer pixel is fully transparent the display
    pixel stays.  The buffer canvas stays, [isBufferDirty] is cleared and
    [isDisplayDirty] is left alone. *)
Theorem drawBufferToDisplay_draws_over w h this :
  0 < w -> 0 < h -> initialized w h this ->
  exists this' d b d',
    el this = Some d /\ bufferEl this = Some b /\
    drawBufferToDisplay this = (Ok tt, this') /\
    el this' = Some d' /\ bufferEl this' = Some b /\
    isBufferDirty this' = false /\ isDisplayDirty this' = isDisplayDirty this /\
    forall x y p q,
      pixelAt d x y = Some p -> pixelAt b x y = Some q ->
      (chAlpha q = 255 -> pixelAt d' x y = Some q) /\
      (chAlpha q = 0 -> pixelAt d' x y = Some p).
Proof.
  intros Hw Hh (Ew & Eh & d & b & Ed & Eb & Sd & Sb).
  destruct this as [w0 h0 d0 b0 bd dd]. cbn in Ew, Eh, Ed, Eb. subst w0 h0 d0 b0.
  eexists _, d, b, _. split; [reflexivity|]. split; [reflexivity|].
  split; [unfold drawBufferToDisplay; run_call;
          rewrite (drawImage_sized w h) by assumption; reflexivity|].
  split; [reflexivity|]. split; [reflexivity|]. split; [reflexivity|].
  split; [reflexivity|].
  intros x y p q Hp Hq. rewrite (pixelAt_drawn w h) by assumption.
  rewrite Hp, Hq. cbn. split; intros Ha.
  - rewrite over_opaque by assumption. reflexivity.
  - rewrite over_clear by assumption. reflexivity.
Qed.

(** X10. The use that the source gives for [drawDisplayToBuffer]: once a
    state has been written to the buffer, drawing the display back onto it
    puts every opaque display pixel on top of the loaded state, and shows
    the loaded state where the display is still transparent. *)
Theorem display_is_rewritten_on_top_of_the_loaded_state w h this state :
  0 < w -> 0 < h -> initialized w h this ->
  Forall (fun p => inBounds w h (pixelX p) (pixelY p)) state ->
  exists this1 this2 d b2,
    el this = Some d /\
    writeStateToBuffer state this = (Ok tt, this1) /\
    drawDisplayToBuffer this1 = (Ok tt, this2) /\
    bufferEl this2 = Some b2 /\ el this2 = Some d /\
    forall x y p,
      pixelAt d x y = Some p ->
      (chAlpha p = 255 -> pixelAt b2 x y = Some p) /\
      (chAlpha p = 0 -> pixelAt b2 x y = Some (expectedPixel x y state)).
Proof.
  intros Hw Hh Hinit Hall.
  destruct (writeStateToBuffer_pixels w h this state Hw Hh Hinit Hall)
    as (this1 & b1 & E1 & Eb1 & Hpix).
  destruct (writeStateToBuffer_run w h this state Hw Hh Hinit) as (b & Eb & Sb & Erun).
  rewrite E1 in Erun. injection Erun as ->. cbn [bufferEl setBufferEl] in Eb1.
  injection Eb1 as <-.
  destruct Hinit as (Ew & Eh & d & b' & Ed & _ & Sd & _).
  destruct this as [w0 h0 d0 b0 bd dd]. cbn in Ew, Eh, Ed, Eb. subst w0 h0 d0 b0.
  assert (Sb1 : sized w h
            (putImageData b
               (mkImageData
                  (fold_left (writePixelState w) state (replicate (Z.to_nat (4 * w * h)) 0))
                  w h)))
    by (apply sized_putImageData, Sb).
  eexists _, _, d, _. split; [reflexivity|]. split; [exact E1|].
  split; [unfold drawDisplayToBuffer; run_call;
          rewrite (drawImage_sized w h) by assumption; reflexivity|].
  split; [reflexivity|]. split; [reflexivity|].
  intros x y p Hp.
  assert (Hxy : inBounds w h x y).
  { destruct Sd as (Dw & Dh & _). unfold pixelAt in Hp. rewrite Dw, Dh in Hp.
    destruct ((0 <=? x) && (x <? w) && (0 <=? y) && (y <? h)) eqn:Hin; [|discriminate].
    rewrite !andb_true_iff, !Z.leb_le, !Z.ltb_lt in Hin. unfold inBounds. lia. }
  rewrite (pixelAt_drawn w h) by assumption.
  rewrite Hp, (Hpix x y Hxy). cbn. split; intros Ha.
  - rewrite over_opaque by assumption. reflexivity.
  - rewrite over_clear by assumption. reflexivity.
Qed.

(** X11. The two ways to put a [#RRGGBB] colour at a coordinate of the
    buffer agree: writing a state of that one update and drawing that one
    tile leave the same pixel there. *)
Theorem state_and_tile_agree w h this x y color :
  0 < w -> 0 < h -> initialized w h this ->
  inBounds w h x y -> isHexColor6 color = true ->
  exists this1 this2 b1 b2,
    writeStateToBuffer [Pixel x y color] this = (Ok tt, this1) /\
    drawTileToBuffer x y color this = (Ok tt, this2) /\
    bufferEl this1 = Some b1 /\ bufferEl this2 = Some b2 /\
    pixelAt b1 x y = pixelAt b2 x y /\
    pixelAt b2 x y = Some (colorPixel (parseHexColor color)).
Proof.
  intros Hw Hh Hinit Hxy Hc.
  assert (Hall : Forall (fun p => inBounds w h (pixelX p) (pixelY p)) [Pixel x y color])
    by (constructor; [exact Hxy | constructor]).
  destruct (writeStateToBuffer_pixels w h this _ Hw Hh Hinit Hall)
    as (this1 & b1 & E1 & Eb1 & Hpix).
  destruct Hinit as (Ew & Eh & d & b & Ed & Eb & Sd & Sb).
  destruct this as [w0 h0 d0 b0 bd dd]. cbn in Ew, Eh, Ed, Eb. subst w0 h0 d0 b0.
  exists this1. eexists _, b1, _. split; [exact E1|].
  split; [unfold drawTileToBuffer; run_call; reflexivity|].
  split; [exact Eb1|]. split; [reflexivity|].
  rewrite (pixelAt_tile_hex6 w h) by assumption.
  split; [|reflexivity].
  rewrite (Hpix x y Hxy). unfold expectedPixel, lastUpdate, targets. cbn.
  rewrite !Z.eqb_refl. reflexivity.
Qed.

(** X12. Before [init] the object holds no canvas, and every drawing call
    throws a TypeError and leaves the object as it was. *)
Theorem calls_before_init_throw this op :
  el this = None -> bufferEl this = None ->
  (forall state, op <> WriteStateToBuffer state) ->
  perform op this = (Throw TypeError, this).
Proof.
  intros Ed Eb Hop.
  destruct op as [x y color|x y color|x y rw rh color|x y rw rh|x y color| | |state];
    cbn [perform];
    unfold drawTileAt, drawTileToDisplay, drawRectToDisplay, clearRectFromDisplay,
      drawTileToBuffer, drawBufferToDisplay, drawDisplayToBuffer;
    run_call; rewrite ?Ed, ?Eb; try reflexivity.
  exfalso. apply (Hop state). reflexivity.
Qed.

(** X13. [writeStateToBuffer] never completes on an object that has no
    buffer canvas, and leaves the object as it was. *)
Theorem writeStateToBuffer_before_init_throws this state :
  bufferEl this = None ->
  exists e, writeStateToBuffer state this = (Throw e, this).
Proof.
  intros Eb. unfold writeStateToBuffer. run_call.
  destruct (pixelDataOf (width this) (height this) state) as [pixelData|e];
    [|eexists; reflexivity].
  destruct (newImageData pixelData (width this) (height this)) as [img|e];
    [|eexists; reflexivity].
  rewrite Eb. eexists; reflexivity.
Qed.

(** X14. After [init] with a positive width and height no call of the
    module throws, whatever calls came before it. *)
Theorem calls_after_init_complete el0 w h this0 ops op :
  0 < w -> 0 < h ->
  (perform op (performAll ops (init el0 w h this0).2)).1 = Ok tt.
Proof.
  intros Hw Hh.
  pose proof (performAll_initialized w h ops (init el0 w h this0).2 Hw Hh
                (init_initialized el0 w h this0)) as Hinit.
  destruct (perform_initialized w h _ op Hw Hh Hinit) as (this' & -> & _).
  reflexivity.
Qed.

(** X15. The dirty flags are written and never read: whatever values they
    hold, every call has the same outcome and leaves the same canvases,
    width and height. *)
Theorem dirty_flags_are_never_read op this bufferDirty displayDirty :
  (perform op (setFlags bufferDirty displayDirty this)).1 = (perform op this).1 /\
  el (perform op (setFlags bufferDirty displayDirty this)).2 = el (perform op this).2 /\
  bufferEl (perform op (setFlags bufferDirty displayDirty this)).2
    = bufferEl (perform op this).2 /\
  width (perform op (setFlags bufferDirty displayDirty this)).2 = width (perform op this).2 /\
  height (perform op (setFlags bufferDirty displayDirty this)).2
    = height (perform op this).2.
Proof.
  destruct this as [w0 h0 d0 b0 bd dd]. unfold setFlags.
  destruct op as [x y color|x y color|x y rw rh color|x y rw rh|x y color| | |state];
    cbn [perform];
    unfold drawTileAt, drawTileToDisplay, drawRectToDisplay, clearRectFromDisplay,
      drawTileToBuffer, drawBufferToDisplay, drawDisplayToBuffer, writeStateToBuffer;
    run_call; destruct d0 as [d|], b0 as [b|]; run_call;
    repeat match goal with
    | |- context [match ?o with Ok _ => _ | Throw _ => _ end] => destruct o; run_call
    end;
    repeat split.
Qed.

(** X16. [init] clears: whatever the element and the object held, every
    pixel of the display and of the buffer canvas is transparent black
    afterwards; the dirty flags are not reset. *)
Theorem init_clears_both_canvases el0 w h this x y :
  inBounds w h x y ->
  exists this' d b,
    init el0 w h this = (Ok tt, this') /\
    el this' = Some d /\ bufferEl this' = Some b /\
    pixelAt d x y = Some transparent /\ pixelAt b x y = Some transparent /\
    isBufferDirty this' = isBufferDirty this /\
    isDisplayDirty this' = isDisplayDirty this.
Proof.
  intros Hxy.
  assert (Hblank : pixelAt (blankCanvas w h) x y = Some transparent).
  { destruct (pixelAt_sized w h _ x y (sized_blankCanvas w h) Hxy) as [p Hp].
    rewrite Hp. f_equal. unfold pixelAt, blankCanvas in Hp. cbn in Hp.
    destruct ((0 <=? x) && (x <? w) && (0 <=? y) && (y <? h)); [|discriminate].
    apply lookup_replicate in Hp as [-> _]. reflexivity. }
  eexists _, _, _. split; [reflexivity|].
  split; [reflexivity|]. split; [reflexivity|].
  split; [exact Hblank|]. split; [exact Hblank|]. split; reflexivity.
Qed.

End PairCalls.

(** ** More on writeStateToBuffer *)

Lemma pixelAt_Some_inBounds w h c x y p :
  sized w h c -> pixelAt c x y = Some p -> inBounds w h x y.
Proof.
  intros (Dw & Dh & _) Hp. unfold pixelAt in Hp. rewrite Dw, Dh in Hp.
  destruct ((0 <=? x) && (x <? w) && (0 <=? y) && (y <? h)) eqn:Hin; [|discriminate].
  rewrite !andb_true_iff, !Z.leb_le, !Z.ltb_lt in Hin. unfold inBounds. lia.
Qed.

(** An image of the size of the canvas covers it: what the canvas held
    before does not show. *)
Lemma putImageData_absorbs w h b img1 img2 :
  0 < w -> sized w h b -> iwidth img2 = w -> iheight img2 = h ->
  putImageData (putImageData b img1) img2 = putImageData b img2.
Proof.
  intros Hw (Dw & Dh & Hlen) Ew Eh. unfold putImageData, paint.
  cbn [cwidth cheight bitmap fillStyle]. f_equal.
  apply list_eq. intros i. rewrite !list_lookup_imap.
  destruct (bitmap b !! i) as [p|] eqn:Hp; [|reflexivity]. cbn.
  apply lookup_lt_Some in Hp. rewrite Hlen in Hp.
  assert (Hh : 0 < h) by (destruct (Z.to_nat h) eqn:E; lia).
  rewrite Dw, Ew, Eh.
  assert (Hi : 0 <= Z.of_nat i < w * h).
  { split; [lia|]. rewrite <- (Z2Nat.id (w * h)) by nia.
    rewrite Z2Nat.inj_mul by lia. lia. }
  replace ((Z.of_nat i mod w <? w) && (Z.of_nat i / w <? h)) with true; [reflexivity|].
  symmetry. rewrite andb_true_iff, !Z.ltb_lt. split.
  - apply Z.mod_pos_bound. lia.
  - apply Z.div_lt_upper_bound; lia.
Qed.

(** One update, wherever it points: the pixel whose flat index it has takes
    the parsed colour, every other pixel stays. *)
Lemma imagePixel_write_any w h arr p x y :
  Z.of_nat (length arr) = 4 * w * h ->
  inBounds w h x y ->
  imagePixel (mkImageData (writePixelState w arr p) w h) x y =
    if landsOn w x y p then colorPixel (parseHexColor (pixelColor p))
    else imagePixel (mkImageData arr w h) x y.
Proof.
  intros Hlen [Hx Hy].
  pose proof (flat_bounds w h _ _ Hx Hy) as Hb.
  destruct (channels_range (pixelColor p)) as (Hr & Hg & Hbl). cbn zeta in Hr, Hg, Hbl.
  unfold imagePixel, writePixelState, landsOn, flatIndex. cbn [data iwidth].
  set (c := parseHexColor (pixelColor p)) in *. clearbody c.
  rewrite !typedGet_typedSet, !length_typedSet.
  destruct (Z.eqb_spec (4 * (pixelY p * w + pixelX p)) (4 * (y * w + x))) as [E|E].
  - rewrite E. decide_tests. cbn. rewrite !toUint8Clamp_id by lia. reflexivity.
  - decide_tests. cbn [andb]. reflexivity.
Qed.

Lemma lastLanding_snoc w x y state p :
  lastLanding w x y (state ++ [p])
    = if landsOn w x y p then Some p else lastLanding w x y state.
Proof. unfold lastLanding. rewrite rev_app_distr. reflexivity. Qed.

Lemma imagePixel_fold_any w h state arr x y :
  Z.of_nat (length arr) = 4 * w * h ->
  inBounds w h x y ->
  imagePixel (mkImageData (fold_left (writePixelState w) state arr) w h) x y =
    match lastLanding w x y state with
    | Some p => colorPixel (parseHexColor (pixelColor p))
    | None => imagePixel (mkImageData arr w h) x y
    end.
Proof.
  intros Hlen Hxy.
  induction state as [|p state IH] using rev_ind; [reflexivity|].
  rewrite fold_left_app. cbn [fold_left].
  rewrite imagePixel_write_any, lastLanding_snoc; try assumption.
  - destruct (landsOn w x y p); [reflexivity | apply IH].
  - rewrite length_fold_writePixelState. assumption.
Qed.

(** The pixels of the buffer once [state] is written, whatever [state]. *)
Lemma writeStateToBuffer_landing w h this state :
  0 < w -> 0 < h -> initialized w h this ->
  exists this' b',
    writeStateToBuffer state this = (Ok tt, this') /\
    bufferEl this' = Some b' /\ sized w h b' /\
    forall x y, inBounds w h x y ->
      pixelAt b' x y =
        Some match lastLanding w x y state with
             | Some p => colorPixel (parseHexColor (pixelColor p))
             | None => transparent
             end.
Proof.
  intros Hw Hh Hinit.
  destruct (writeStateToBuffer_run w h this state Hw Hh Hinit) as (b & Eb & Sb & Erun).
  eexists _, _. split; [exact Erun|]. split; [reflexivity|].
  split; [apply sized_putImageData, Sb|].
  intros x y Hxy.
  rewrite (pixelAt_putImageData w h) by (assumption || reflexivity).
  f_equal. rewrite imagePixel_fold_any; try assumption.
  - destruct (lastLanding w x y state); [reflexivity | apply imagePixel_zeros].
  - rewrite length_replicate, Z2Nat.id by nia. reflexivity.
Qed.

(** X17. On an initialized pair [writeStateToBuffer] absorbs any earlier
    call of itself: written after another state, a state leaves the very
    object it leaves when written alone; in particular writing the same
    state twice is writing it once. *)
Theorem writeStateToBuffer_absorbs_earlier_state w h this earlier state :
  0 < w -> 0 < h -> initialized w h this ->
  writeStateToBuffer state (writeStateToBuffer earlier this).2
    = writeStateToBuffer state this /\
  writeStateToBuffer state (writeStateToBuffer state this).2
    = writeStateToBuffer state this.
Proof.
  intros Hw Hh Hinit.
  assert (Habs : forall earlier',
            writeStateToBuffer state (writeStateToBuffer earlier' this).2
              = writeStateToBuffer state this).
  { intros earlier'.
    destruct (writeStateToBuffer_run w h this earlier' Hw Hh Hinit) as (b & Eb & Sb & E1).
    destruct (writeStateToBuffer_initialized w h this earlier' Hw Hh Hinit)
      as (this1 & E1' & Hinit1).
    rewrite E1 in E1'. injection E1' as <-. rewrite E1. cbn [snd].
    destruct (writeStateToBuffer_run w h _ state Hw Hh Hinit1) as (b1 & Eb1 & Sb1 & E2).
    destruct (writeStateToBuffer_run w h this state Hw Hh Hinit) as (b' & Eb' & _ & E3).
    rewrite Eb in Eb'. injection Eb' as <-.
    cbn [bufferEl setBufferEl] in Eb1. injection Eb1 as <-.
    rewrite E2, E3. f_equal.
    rewrite (putImageData_absorbs w h) by (assumption || reflexivity).
    destruct this; reflexivity. }
  split; apply Habs.
Qed.

(** X18. On an initialized pair [writeStateToBuffer] completes for every
    list of updates, inside the grid or not, whose indices the doubles of
    the source compute without rounding: the bytes the source writes are
    those of the model, each pixel shows the parsed colour of the last
    update whose flat index is the pixel's, and no pixel is left partly
    written: it is transparent black or fully opaque. *)
Theorem writeStateToBuffer_any_state w h this state :
  0 < w -> 0 < h -> initialized w h this ->
  Forall (fun p => exactIndex w (pixelX p) (pixelY p)) state ->
  (forall pixelData,
     fold_left (writePixelStateNumber w) state pixelData
       = fold_left (writePixelState w) state pixelData) /\
  exists this' b',
    writeStateToBuffer state this = (Ok tt, this') /\
    bufferEl this' = Some b' /\
    (forall x y, inBounds w h x y ->
       pixelAt b' x y =
         Some match lastLanding w x y state with
              | Some p => colorPixel (parseHexColor (pixelColor p))
              | None => transparent
              end) /\
    (forall x y p, pixelAt b' x y = Some p -> p = transparent \/ chAlpha p = 255).
Proof.
  intros Hw Hh Hinit Hex.
  split; [intros pixelData; apply fold_writePixelStateNumber_exact, Hex|].
  destruct (writeStateToBuffer_landing w h this state Hw Hh Hinit)
    as (this' & b' & E & Eb & Sb & Hpix).
  exists this', b'. split; [exact E|]. split; [exact Eb|]. split; [exact Hpix|].
  intros x y p Hp.
  pose proof (pixelAt_Some_inBounds w h b' x y p Sb Hp) as Hxy.
  rewrite (Hpix x y Hxy) in Hp. injection Hp as <-.
  destruct (lastLanding w x y state); [right; reflexivity | left; reflexivity].
Qed.

Lemma fmap_NoDup_inj {A B} (f : A -> B) (l : list A) a b :
  NoDup (f <$> l) -> a ∈ l -> b ∈ l -> f a = f b -> a = b.
Proof.
  intros Hnd Ha Hb Hf.
  induction l as [|c l IH]; [inversion Ha|].
  rewrite fmap_cons in Hnd. apply NoDup_cons in Hnd as [Hc Hnd].
  apply elem_of_cons in Ha as [->|Ha], Hb as [->|Hb]; try reflexivity.
  - exfalso. apply Hc. apply list_elem_of_fmap. exists b. split; [congruence|exact Hb].
  - exfalso. apply Hc. apply list_elem_of_fmap. exists a. split; [congruence|exact Ha].
  - apply IH; assumption.
Qed.

(** An update that lands on a pixel of the grid lands inside the array. *)
Lemma landsOn_landsInside w h x y p :
  inBounds w h x y -> landsOn w x y p = true -> landsInside w h p = true.
Proof.
  intros [Hx Hy] Hl. unfold landsOn in Hl. apply Z.eqb_eq in Hl.
  unfold landsInside. rewrite Hl. unfold flatIndex.
  pose proof (flat_bounds w h x y Hx Hy).
  rewrite andb_true_iff, Z.leb_le, Z.ltb_lt.
  replace (4 * w * h) with (4 * (w * h)) by ring. lia.
Qed.

(** Among the updates that land inside the array on pairwise distinct
    pixels, the one that lands on a pixel is the same however the list is
    ordered. *)
Lemma lastLanding_permutation w h x y state1 state2 :
  inBounds w h x y ->
  NoDup ((fun p => flatIndex w (pixelX p) (pixelY p))
           <$> List.filter (landsInside w h) state1) ->
  state1 ≡ₚ state2 ->
  lastLanding w x y state1 = lastLanding w x y state2.
Proof.
  intros Hxy Hnd Hperm. unfold lastLanding.
  assert (Hin : forall p, In p (rev state1) <-> In p (rev state2)).
  { intros p. rewrite <- !in_rev, <- !list_elem_of_In. rewrite Hperm. reflexivity. }
  destruct (find (landsOn w x y) (rev state1)) as [p1|] eqn:E1;
    destruct (find (landsOn w x y) (rev state2)) as [p2|] eqn:E2; [| | |reflexivity].
  - apply find_some in E1 as [H1 L1]. apply find_some in E2 as [H2 L2].
    apply Hin in H2. apply in_rev in H1, H2.
    f_equal.
    apply (fmap_NoDup_inj _ _ p1 p2 Hnd).
    + apply list_elem_of_In, filter_In. eauto using landsOn_landsInside.
    + apply list_elem_of_In, filter_In. eauto using landsOn_landsInside.
    + unfold landsOn in L1, L2. apply Z.eqb_eq in L1, L2. congruence.
  - apply find_some in E1 as [H1 L1]. apply Hin in H1.
    rewrite (find_none _ _ E2 _ H1) in L1. discriminate.
  - apply find_some in E2 as [H2 L2]. apply Hin in H2.
    rewrite (find_none _ _ E1 _ H2) in L2. discriminate.
Qed.

(** X19. Updates whose indices the doubles of the source compute without
    rounding, and of which those that land inside the array land on
    pairwise distinct pixels, can be written in any order: two lists that
    hold the same updates make the source write the same bytes as the
    model, and leave the same pixels. *)
Theorem writeStateToBuffer_order_of_distinct_updates w h this state1 state2 :
  0 < w -> 0 < h -> initialized w h this ->
  Forall (fun p => exactIndex w (pixelX p) (pixelY p)) state1 ->
  NoDup ((fun p => flatIndex w (pixelX p) (pixelY p))
           <$> List.filter (landsInside w h) state1) ->
  state1 ≡ₚ state2 ->
  (forall pixelData,
     fold_left (writePixelStateNumber w) state1 pixelData
       = fold_left (writePixelState w) state1 pixelData /\
     fold_left (writePixelStateNumber w) state2 pixelData
       = fold_left (writePixelState w) state2 pixelData) /\
  exists this1 this2 b1 b2,
    writeStateToBuffer state1 this = (Ok tt, this1) /\
    writeStateToBuffer state2 this = (Ok tt, this2) /\
    bufferEl this1 = Some b1 /\ bufferEl this2 = Some b2 /\
    forall x y, pixelAt b1 x y = pixelAt b2 x y.
Proof.
  intros Hw Hh Hinit Hex Hnd Hperm.
  assert (Hex2 : Forall (fun p => exactIndex w (pixelX p) (pixelY p)) state2)
    by (rewrite <- Hperm; exact Hex).
  split; [intros pixelData; split; apply fold_writePixelStateNumber_exact; assumption|].
  destruct (writeStateToBuffer_landing w h this state1 Hw Hh Hinit)
    as (this1 & b1 & E1 & Eb1 & Sb1 & Hpix1).
  destruct (writeStateToBuffer_landing w h this state2 Hw Hh Hinit)
    as (this2 & b2 & E2 & Eb2 & Sb2 & Hpix2).
  exists this1, this2, b1, b2. repeat (split; [assumption|]).
  intros x y.
  destruct (pixelAt b1 x y) as [p|] eqn:Hp.
  - pose proof (pixelAt_Some_inBounds w h b1 x y p Sb1 Hp) as Hxy.
    rewrite (Hpix1 x y Hxy) in Hp. rewrite (Hpix2 x y Hxy), <- Hp.
    rewrite (lastLanding_permutation w h x y state1 state2 Hxy Hnd Hperm). reflexivity.
  - destruct (pixelAt b2 x y) as [q|] eqn:Hq; [|reflexivity].
    pose proof (pixelAt_Some_inBounds w h b2 x y q Sb2 Hq) as Hxy.
    rewrite (Hpix1 x y Hxy) in Hp. discriminate.
Qed.

(** ** More on bindEvents and hijack *)

Lemma addEventListener_prefix target type cb c :
  target `prefix_of` addEventListener target type cb c.
Proof.
  unfold addEventListener. case_decide; [reflexivity|].
  apply prefix_app_r. reflexivity.
Qed.

Lemma addEventListener_NoDup target type cb c :
  NoDup target -> NoDup (addEventListener target type cb c).
Proof.
  intros Hnd. unfold addEventListener. case_decide as Hin; [assumption|].
  apply NoDup_app. split; [assumption|]. split; [|apply NoDup_singleton].
  intros l Hl Hl'. apply list_elem_of_singleton in Hl'. subst l. contradiction.
Qed.

Lemma addEventListener_present target type cb c :
  mkListener type cb c ∈ target -> addEventListener target type cb c = target.
Proof. intros Hin. unfold addEventListener. case_decide; [reflexivity|contradiction]. Qed.

Lemma bindStep_prefix eventsDict target event :
  target `prefix_of` bindStep eventsDict target event.
Proof.
  unfold bindStep. destruct (property eventsDict event); [|reflexivity].
  apply addEventListener_prefix.
Qed.

Lemma bindStep_NoDup eventsDict target event :
  NoDup target -> NoDup (bindStep eventsDict target event).
Proof.
  intros Hnd. unfold bindStep. destruct (property eventsDict event); [|assumption].
  apply addEventListener_NoDup, Hnd.
Qed.

(** X20. [bindEvents] only appends: the listeners the target had stay,
    in their order, before the ones it adds. *)
Theorem bindEvents_keeps_the_listeners target eventsDict useCapture :
  target `prefix_of` bindEvents target eventsDict useCapture.
Proof.
  unfold bindEvents. generalize (keysOf eventsDict) as keys. intros keys.
  revert target. induction keys as [|k keys IH]; intros target; cbn [fold_left].
  - reflexivity.
  - etransitivity; [apply (bindStep_prefix eventsDict target k) | apply IH].
Qed.

(** X21. [bindEvents] registers no listener twice: a target without
    duplicate listeners has none afterwards, also when the dictionary
    repeats what is already registered. *)
Theorem bindEvents_registers_nothing_twice target eventsDict useCapture :
  NoDup target -> NoDup (bindEvents target eventsDict useCapture).
Proof.
  unfold bindEvents. generalize (keysOf eventsDict) as keys. intros keys.
  revert target. induction keys as [|k keys IH]; intros target Hnd; cbn [fold_left].
  - assumption.
  - apply IH, bindStep_NoDup, Hnd.
Qed.

Lemma bind_again eventsDict keys target :
  (forall event handler,
     event ∈ keys -> property eventsDict event = Some handler ->
     mkListener event handler true ∈ target) ->
  fold_left (bindStep eventsDict) keys target = target.
Proof.
  induction keys as [|k keys IH]; intros Hall; cbn [fold_left]; [reflexivity|].
  assert (Hk : bindStep eventsDict target k = target).
  { unfold bindStep. destruct (property eventsDict k) as [handler|] eqn:Hp; [|reflexivity].
    apply addEventListener_present, Hall; [left | assumption]. }
  rewrite Hk. apply IH. intros event handler Hin Hp.
  apply Hall; [right; assumption | assumption].
Qed.

(** X22. Binding the same dictionary a second time changes nothing,
    whatever [useCapture] is passed either time. *)
Theorem bindEvents_twice_is_once target eventsDict useCapture useCapture' :
  bindEvents (bindEvents target eventsDict useCapture) eventsDict useCapture'
    = bindEvents target eventsDict useCapture.
Proof.
  unfold bindEvents at 1. apply bind_again.
  intros event handler Hin Hp. unfold bindEvents.
  apply bind_adds; assumption.
Qed.

(** X23. [hijack] touches the one property it is given.  When a call of
    the replacement completes, the target has no property [targetMethod]
    any more, even if it had one of its own before the call; what else the
    call left on the target is what [fn] left there. *)
Theorem hijack_marker_is_removed native target methodName g args obj :
  (forall name, name <> methodName ->
     hijack target methodName (VFunction g) !! name = target !! name) /\
  (forall original res obj',
     applyFn native (Hijacked original (VFunction g)) args obj = (Ok res, obj') ->
     obj' !! "targetMethod" = None /\
     exists res' left,
       applyFn native g args (<["targetMethod" := original]> obj) = (Ok res', left) /\
       forall name, name <> "targetMethod"%string -> obj' !! name = left !! name).
Proof.
  split.
  - intros name Hne. unfold hijack. apply lookup_insert_ne. congruence.
  - intros original res obj'. cbn [applyFn].
    destruct (applyFn native g args (<["targetMethod" := original]> obj))
      as [[res'|e] left] eqn:Hg; [|discriminate].
    intros [= <- <-]. split; [apply lookup_delete_eq|].
    exists res', left. split; [reflexivity|].
    intros name Hne. apply lookup_delete_ne. congruence.
Qed.

(** X24. [hijack] does not check that [fn] is a function: it installs the
    replacement all the same, and every call of it then throws a TypeError
    and leaves the property [targetMethod] set on the target. *)
Theorem hijack_with_no_function native target methodName fn args obj :
  (forall g, fn <> VFunction g) ->
  let original := default VUndefined (target !! methodName) in
  hijack target methodName fn !! methodName = Some (VFunction (Hijacked original fn)) /\
  applyFn native (Hijacked original fn) args obj
    = (Throw TypeError, <["targetMethod" := original]> obj).
Proof.
  intros Hfn original. split.
  - unfold hijack. apply lookup_insert_eq.
  - cbn [applyFn]. destruct fn as [| | |g]; try reflexivity.
    exfalso. apply (Hfn g). reflexivity.
Qed.

(** ** The properties at concrete inputs *)

#[local] Existing Instance plainBrowser.

(** The pair just initialized is initialized. *)
Lemma freshPair_initialized : initialized 2 2 freshPair.
Proof.
  split; [reflexivity|]. split; [reflexivity|].
  exists (blankCanvas 2 2), (blankCanvas 2 2).
  repeat split; reflexivity.
Defined.

(** C1 at three updates of a 2 x 2 pair, two of them for the same pixel. *)
Lemma writeStateToBuffer_materializes_witness :
  let state := [Pixel 0 0 "#ff0000"; Pixel 1 1 "#0000ff"; Pixel 0 0 "#00ff00"] in
  (0 < 2 /\ 0 < 2 /\ initialized 2 2 freshPair /\
   Forall (fun p => inBounds 2 2 (pixelX p) (pixelY p)) state) /\
  exists this' b',
    writeStateToBuffer state freshPair = (Ok tt, this') /\
    bufferEl this' = Some b' /\
    forall x y, inBounds 2 2 x y -> pixelAt b' x y = Some (expectedPixel x y state).
Proof.
  intros state.
  assert (H2 : 0 < 2) by lia.
  assert (Hall : Forall (fun p => inBounds 2 2 (pixelX p) (pixelY p)) state)
    by (repeat constructor; cbn; lia).
  split; [auto using freshPair_initialized|].
  exact (proj1 (@writeStateToBuffer_materializes 2 2 freshPair state
                  H2 H2 freshPair_initialized Hall)).
Defined.

(** C2 at the pixel (1, 0) of a 2 x 2 pair. *)
Lemma drawTileToBuffer_then_flush_witness :
  (0 < 2 /\ 0 < 2 /\ initialized 2 2 freshPair /\ inBounds 2 2 1 0 /\
   isHexColor6 "#12aB9f" = true) /\
  exists this1 this2 d,
    drawTileToBuffer 1 0 "#12aB9f" freshPair = (Ok tt, this1) /\
    drawBufferToDisplay this1 = (Ok tt, this2) /\
    el this2 = Some d /\
    pixelAt d 1 0 = Some (colorPixel (parseHexColor "#12aB9f")).
Proof.
  assert (H2 : 0 < 2) by lia.
  assert (Hin : inBounds 2 2 1 0) by (unfold inBounds; lia).
  assert (Hc : isHexColor6 "#12aB9f" = true) by reflexivity.
  split; [auto using freshPair_initialized|].
  exact (@drawTileToBuffer_then_flush plainBrowser 2 2 freshPair 1 0 "#12aB9f"
           H2 H2 freshPair_initialized Hin Hc).
Defined.

(** C3 as stated fails: on a pair of one pixel whose display is still
    transparent and whose buffer holds a red pixel, both calls complete and
    the display pixel has turned red. *)
Lemma roundtrip_repaints_transparent_pixel :
  initialized 1 1 paintedPair /\
  displayPixels paintedPair = Some [transparent] /\
  (drawDisplayToBuffer paintedPair).1 = Ok tt /\
  (drawBufferToDisplay
     (drawDisplayToBuffer paintedPair).2).1 = Ok tt /\
  displayPixels
    (drawBufferToDisplay
       (drawDisplayToBuffer paintedPair).2).2
  = Some [RGBA 255 0 0 255].
Proof.
  split; [|vm_compute; auto].
  split; [reflexivity|]. split; [reflexivity|].
  eexists _, _. split; [reflexivity|]. split; [reflexivity|].
  repeat split; reflexivity.
Qed.

(** C3 as amended, at a 2 x 2 pair whose display holds a green pixel and
    whose buffer holds red ones. *)
Lemma roundtrip_keeps_opaque_pixels_witness :
  (0 < 2 /\ 0 < 2 /\ initialized 2 2 mixedPair) /\
  exists this1 this2 d b d2,
    el mixedPair = Some d /\ bufferEl mixedPair = Some b /\
    drawDisplayToBuffer mixedPair = (Ok tt, this1) /\
    drawBufferToDisplay this1 = (Ok tt, this2) /\
    el this2 = Some d2 /\
    forall x y p q,
      pixelAt d x y = Some p -> pixelAt b x y = Some q ->
      pixelAt d2 x y = Some (over (over p q) p) /\
      (chAlpha p = 255 -> pixelAt d2 x y = Some p) /\
      (chAlpha p = 0 -> chAlpha q = 255 -> pixelAt d2 x y = Some q).
Proof.
  assert (H2 : 0 < 2) by lia.
  assert (Hinit : initialized 2 2 mixedPair).
  { split; [reflexivity|]. split; [reflexivity|].
    eexists _, _. split; [reflexivity|]. split; [reflexivity|].
    repeat split; reflexivity. }
  split; [auto|].
  exact (@roundtrip_keeps_opaque_pixels plainBrowser 2 2 mixedPair H2 H2 Hinit).
Defined.

(** On that pair the green pixel stays, and the transparent pixel beside it
    turns red. *)
Example roundtrip_on_mixedPair :
  displayPixels mixedPair
    = Some [RGBA 0 255 0 255; transparent; transparent; transparent] /\
  displayPixels (drawBufferToDisplay (drawDisplayToBuffer mixedPair).2).2
    = Some [RGBA 0 255 0 255; RGBA 255 0 0 255; transparent; transparent].
Proof. split; reflexivity. Qed.

(** C5 at a run of all eight calls. *)
Lemma dimensions_agree_witness :
  let ops := [DrawTileToDisplay 0 0 "#ff0000"; WriteStateToBuffer [Pixel 1 1 "#00ff00"];
              DrawBufferToDisplay; ClearRectFromDisplay 0 0 1 1; DrawDisplayToBuffer;
              DrawTileAt 1 0 "#0000ff"; DrawRectToDisplay 0 0 2 1 "#fff";
              DrawTileToBuffer 5 5 "red"] in
  (0 < 2 /\ 0 < 2) /\
  exists d b,
    el (performAll ops freshPair) = Some d /\
    bufferEl (performAll ops freshPair) = Some b /\
    cwidth d = 2 /\ cheight d = 2 /\ cwidth b = 2 /\ cheight b = 2.
Proof.
  intros ops.
  assert (H2 : 0 < 2) by lia.
  split; [auto|].
  exact (@dimensions_agree plainBrowser (blankCanvas 300 150) 2 2 initial ops H2 H2).
Defined.

(** C6 as stated fails: [init] with width 0 and height 0 completes and
    installs both canvases, and tiles can then be drawn to either. *)
Lemma init_accepts_zero_size :
  init (blankCanvas 300 150) 0 0 initial =
    (Ok tt,
     {| width := 0; height := 0;
        el := Some (blankCanvas 0 0); bufferEl := Some (blankCanvas 0 0);
        isBufferDirty := false; isDisplayDirty := false |}) /\
  (drawTileToBuffer 0 0 "#ff0000"
     (init (blankCanvas 300 150) 0 0 initial).2).1 = Ok tt /\
  (drawTileToDisplay 0 0 "#ff0000"
     (init (blankCanvas 300 150) 0 0 initial).2).1 = Ok tt.
Proof. repeat split. Qed.

(** C6 as amended, at width 0 and height 5. *)
Lemma init_does_not_validate_witness :
  (0 <= 0 \/ 5 <= 0) /\
  exists this' d b,
    init (blankCanvas 300 150) 0 5 initial = (Ok tt, this') /\
    width this' = 0 /\ height this' = 5 /\
    el this' = Some d /\ bufferEl this' = Some b /\
    (forall x y color, (drawTileToBuffer x y color this').1 = Ok tt) /\
    (forall state, exists e,
       writeStateToBuffer state this' = (Throw e, this')).
Proof.
  assert (H0 : 0 <= 0 \/ 5 <= 0) by (left; lia).
  split; [exact H0|].
  exact (@init_does_not_validate plainBrowser (blankCanvas 300 150) 0 5 initial H0).
Defined.

(** C7 as stated fails: on a 2 x 2 grid the coordinate (2, 0) is outside
    the grid, yet its flat index is that of (0, 1), inside the array, and
    the update paints that pixel. *)
Lemma x_past_the_row_lands_on_the_next_row :
  ~ inBounds 2 2 2 0 /\
  0 <= flatIndex 2 2 0 < 4 * 2 * 2 /\
  flatIndex 2 2 0 = flatIndex 2 0 1 /\
  pixelDataOf 2 2 [Pixel 2 0 "#ff0000"]
    = Ok [0; 0; 0; 0;  0; 0; 0; 0;  255; 0; 0; 255;  0; 0; 0; 0].
Proof.
  split; [unfold inBounds; lia|].
  split; [vm_compute; split; [discriminate | reflexivity]|].
  split; reflexivity.
Qed.

(** Settles that the index of a given coordinate is computed exactly. *)
Ltac exact_index :=
  repeat split; vm_compute; let Hgt := fresh "Hgt" in intro Hgt; discriminate Hgt.

(** C7 as amended, at the coordinate (1, 2) of a 2 x 2 grid. *)
Lemma flatIndex_range_witness :
  (0 < 2 /\ 0 < 2 /\ exactIndex 2 1 2) /\
  flatIndexNumber 2 1 2 = Int (flatIndex 2 1 2) /\
  ((0 <= flatIndex 2 1 2 < 4 * 2 * 2) <-> (0 <= 2 * 2 + 1 < 2 * 2)) /\
  (0 <= 1 < 2 -> ~ (0 <= 2 < 2) -> ~ (0 <= flatIndex 2 1 2 < 4 * 2 * 2)) /\
  (forall pixelData color,
     Z.of_nat (length pixelData) = 4 * 2 * 2 ->
     0 <= 1 < 2 -> ~ (0 <= 2 < 2) ->
     writePixelStateNumber 2 pixelData (Pixel 1 2 color) = pixelData).
Proof.
  assert (H2 : 0 < 2) by lia.
  assert (Hex : exactIndex 2 1 2) by exact_index.
  split; [auto|].
  exact (@flatIndex_range 2 2 1 2 H2 H2 Hex).
Defined.

(** Beyond the safe integers the doubles round, and the index that the
    source computes is no longer the flat index: on a grid 3 wide the
    source finds the index 32 where exact arithmetic finds 36. *)
Example flatIndexNumber_rounds :
  flatIndexNumber 3 (-9007199254740984) 3002399751580331 = Int 32 /\
  flatIndex 3 (-9007199254740984) 3002399751580331 = 36 /\
  ~ exactIndex 3 (-9007199254740984) 3002399751580331.
Proof.
  split; [reflexivity|]. split; [reflexivity|].
  intros (_ & _ & _ & Hyw & _). vm_compute in Hyw. apply Hyw. reflexivity.
Qed.

(** The examples of the specification. *)
Example parseHexColor_white : parseHexColor "#FFFFFF" = mkColor 255 255 255.
Proof. reflexivity. Qed.

Example parseHexColor_black : parseHexColor "#000000" = mkColor 0 0 0.
Proof. reflexivity. Qed.

Example materialize_last_write_wins :
  pixelDataOf 1 1 [Pixel 0 0 "#ff0000"; Pixel 0 0 "#00ff00"] = Ok [0; 255; 0; 255].
Proof. reflexivity. Qed.

Example bindEvents_ignores_false :
  bindEvents [] [("mouseup"%string, 1%nat); ("click"%string, 2%nat)] (Some false)
  = [mkListener "mouseup" 1 true; mkListener "click" 2 true].
Proof. reflexivity. Qed.

(** ** The further properties at concrete inputs *)

(** The mixed pair is initialized. *)
Lemma mixedPair_initialized : initialized 2 2 mixedPair.
Proof.
  split; [reflexivity|]. split; [reflexivity|].
  eexists _, _. split; [reflexivity|]. split; [reflexivity|].
  repeat split; reflexivity.
Defined.

(** X3 at the string [#f0a]. *)
Lemma parseHexColor_shorthand_witness :
  (hexDigit "f" = Some 15 /\ hexDigit "0" = Some 0 /\ hexDigit "a" = Some 10) /\
  parseHexColor "#f0a" = mkColor 0 15 (16 * 0 + 10) /\
  (code "#" = 35 -> cssHexColor "#f0a" = Some (RGBA (17 * 15) (17 * 0) (17 * 10) 255)).
Proof.
  assert (H1 : hexDigit "f" = Some 15) by reflexivity.
  assert (H2 : hexDigit "0" = Some 0) by reflexivity.
  assert (H3 : hexDigit "a" = Some 10) by reflexivity.
  split; [auto|].
  exact (parseHexColor_shorthand "#" "f" "0" "a" 15 0 10 H1 H2 H3).
Defined.

(** X4 at the pixel (1, 0) of the fresh pair. *)
Lemma drawTileToDisplay_paints_one_pixel_witness :
  (initialized 2 2 freshPair /\ inBounds 2 2 1 0 /\ isHexColor6 "#12aB9f" = true) /\
  exists this' d d',
    el freshPair = Some d /\
    drawTileToDisplay 1 0 "#12aB9f" freshPair = (Ok tt, this') /\
    el this' = Some d' /\
    pixelAt d' 1 0 = Some (colorPixel (parseHexColor "#12aB9f")) /\
    (forall px py, (px, py) <> (1, 0) -> pixelAt d' px py = pixelAt d px py) /\
    bufferEl this' = bufferEl freshPair /\
    isDisplayDirty this' = true /\
    isBufferDirty this' = isBufferDirty freshPair.
Proof.
  assert (Hin : inBounds 2 2 1 0) by (unfold inBounds; lia).
  assert (Hc : isHexColor6 "#12aB9f" = true) by reflexivity.
  split; [auto using freshPair_initialized|].
  exact (drawTileToDisplay_paints_one_pixel 2 2 freshPair 1 0 "#12aB9f"
           freshPair_initialized Hin Hc).
Defined.

(** X5 at the pixel (0, 1) of the fresh pair. *)
Lemma drawTileToBuffer_paints_one_pixel_witness :
  (initialized 2 2 freshPair /\ inBounds 2 2 0 1 /\ isHexColor6 "#FF8000" = true) /\
  exists this' b b',
    bufferEl freshPair = Some b /\
    drawTileToBuffer 0 1 "#FF8000" freshPair = (Ok tt, this') /\
    bufferEl this' = Some b' /\
    pixelAt b' 0 1 = Some (colorPixel (parseHexColor "#FF8000")) /\
    (forall px py, (px, py) <> (0, 1) -> pixelAt b' px py = pixelAt b px py) /\
    el this' = el freshPair /\
    isBufferDirty this' = true /\
    isDisplayDirty this' = isDisplayDirty freshPair.
Proof.
  assert (Hin : inBounds 2 2 0 1) by (unfold inBounds; lia).
  assert (Hc : isHexColor6 "#FF8000" = true) by reflexivity.
  split; [auto using freshPair_initialized|].
  exact (drawTileToBuffer_paints_one_pixel 2 2 freshPair 0 1 "#FF8000"
           freshPair_initialized Hin Hc).
Defined.

(** X6 at the coordinate (2, -1) beside the fresh pair. *)
Lemma tile_outside_the_grid_changes_no_pixel_witness :
  (el freshPair = Some (blankCanvas 2 2) /\ bufferEl freshPair = Some (blankCanvas 2 2) /\
   ~ inBounds 2 2 2 (-1)) /\
  (exists this' b',
     drawTileToBuffer 2 (-1) "#ff0000" freshPair = (Ok tt, this') /\
     bufferEl this' = Some b' /\ el this' = Some (blankCanvas 2 2) /\
     isBufferDirty this' = true /\
     forall px py, pixelAt b' px py = pixelAt (blankCanvas 2 2) px py) /\
  (exists this' d',
     drawTileToDisplay 2 (-1) "#ff0000" freshPair = (Ok tt, this') /\
     el this' = Some d' /\ bufferEl this' = Some (blankCanvas 2 2) /\
     isDisplayDirty this' = true /\
     forall px py, pixelAt d' px py = pixelAt (blankCanvas 2 2) px py).
Proof.
  assert (Hd : el freshPair = Some (blankCanvas 2 2)) by reflexivity.
  assert (Hb : bufferEl freshPair = Some (blankCanvas 2 2)) by reflexivity.
  assert (Hout : ~ inBounds 2 2 2 (-1)) by (unfold inBounds; lia).
  split; [auto|].
  exact (tile_outside_the_grid_changes_no_pixel freshPair (blankCanvas 2 2)
           (blankCanvas 2 2) 2 (-1) "#ff0000" Hd Hb Hout Hout).
Defined.

(** X7 at a rectangle that covers the upper row of the fresh pair. *)
Lemma drawRectToDisplay_paints_the_rectangle_witness :
  (el freshPair = Some (blankCanvas 2 2) /\ 0 <= 2 /\ 0 <= 1 /\
   isHexColor6 "#00ff00" = true) /\
  exists this' d',
    drawRectToDisplay 0 0 2 1 "#00ff00" freshPair = (Ok tt, this') /\
    el this' = Some d' /\
    bufferEl this' = bufferEl freshPair /\
    isDisplayDirty this' = true /\
    (forall px py p,
       pixelAt (blankCanvas 2 2) px py = Some p ->
       0 <= px < 0 + 2 /\ 0 <= py < 0 + 1 ->
       pixelAt d' px py = Some (colorPixel (parseHexColor "#00ff00"))) /\
    (forall px py,
       ~ (0 <= px < 0 + 2 /\ 0 <= py < 0 + 1) ->
       pixelAt d' px py = pixelAt (blankCanvas 2 2) px py).
Proof.
  assert (Hd : el freshPair = Some (blankCanvas 2 2)) by reflexivity.
  assert (H2 : 0 <= 2) by lia.
  assert (H1 : 0 <= 1) by lia.
  assert (Hc : isHexColor6 "#00ff00" = true) by reflexivity.
  split; [auto|].
  exact (drawRectToDisplay_paints_the_rectangle freshPair (blankCanvas 2 2)
           0 0 2 1 "#00ff00" Hd H2 H1 Hc).
Defined.

(** X8 at the green pixel of the mixed pair. *)
Lemma clearRectFromDisplay_clears_the_rectangle_witness :
  (el mixedPair =
     Some (mkCanvas 2 2 [RGBA 0 255 0 255; transparent; transparent; transparent]
             (RGBA 0 255 0 255)) /\
   0 <= 1 /\ 0 <= 1) /\
  exists this' d',
    clearRectFromDisplay 0 0 1 1 mixedPair = (Ok tt, this') /\
    el this' = Some d' /\
    bufferEl this' = bufferEl mixedPair /\
    isDisplayDirty this' = true /\
    (forall px py p,
       pixelAt (mkCanvas 2 2 [RGBA 0 255 0 255; transparent; transparent; transparent]
                  (RGBA 0 255 0 255)) px py = Some p ->
       0 <= px < 0 + 1 /\ 0 <= py < 0 + 1 ->
       pixelAt d' px py = Some transparent) /\
    (forall px py,
       ~ (0 <= px < 0 + 1 /\ 0 <= py < 0 + 1) ->
       pixelAt d' px py =
         pixelAt (mkCanvas 2 2 [RGBA 0 255 0 255; transparent; transparent; transparent]
                    (RGBA 0 255 0 255)) px py).
Proof.
  assert (Hd : el mixedPair =
     Some (mkCanvas 2 2 [RGBA 0 255 0 255; transparent; transparent; transparent]
             (RGBA 0 255 0 255))) by reflexivity.
  assert (H1 : 0 <= 1) by lia.
  split; [auto|].
  exact (clearRectFromDisplay_clears_the_rectangle mixedPair _ 0 0 1 1 Hd H1 H1).
Defined.

(** X9 at the mixed pair. *)
Lemma drawBufferToDisplay_draws_over_witness :
  (0 < 2 /\ 0 < 2 /\ initialized 2 2 mixedPair) /\
  exists this' d b d',
    el mixedPair = Some d /\ bufferEl mixedPair = Some b /\
    drawBufferToDisplay mixedPair = (Ok tt, this') /\
    el this' = Some d' /\ bufferEl this' = Some b /\
    isBufferDirty this' = false /\ isDisplayDirty this' = isDisplayDirty mixedPair /\
    forall x y p q,
      pixelAt d x y = Some p -> pixelAt b x y = Some q ->
      (chAlpha q = 255 -> pixelAt d' x y = Some q) /\
      (chAlpha q = 0 -> pixelAt d' x y = Some p).
Proof.
  assert (H2 : 0 < 2) by lia.
  split; [auto using mixedPair_initialized|].
  exact (drawBufferToDisplay_draws_over 2 2 mixedPair H2 H2 mixedPair_initialized).
Defined.

(** X10 at the mixed pair and a state of two updates. *)
Lemma display_is_rewritten_on_top_of_the_loaded_state_witness :
  let state := [Pixel 0 0 "#0000ff"; Pixel 1 1 "#ffff00"] in
  (0 < 2 /\ 0 < 2 /\ initialized 2 2 mixedPair /\
   Forall (fun p => inBounds 2 2 (pixelX p) (pixelY p)) state) /\
  exists this1 this2 d b2,
    el mixedPair = Some d /\
    writeStateToBuffer state mixedPair = (Ok tt, this1) /\
    drawDisplayToBuffer this1 = (Ok tt, this2) /\
    bufferEl this2 = Some b2 /\ el this2 = Some d /\
    forall x y p,
      pixelAt d x y = Some p ->
      (chAlpha p = 255 -> pixelAt b2 x y = Some p) /\
      (chAlpha p = 0 -> pixelAt b2 x y = Some (expectedPixel x y state)).
Proof.
  intros state.
  assert (H2 : 0 < 2) by lia.
  assert (Hall : Forall (fun p => inBounds 2 2 (pixelX p) (pixelY p)) state)
    by (repeat constructor; cbn; lia).
  split; [auto using mixedPair_initialized|].
  exact (display_is_rewritten_on_top_of_the_loaded_state 2 2 mixedPair state
           H2 H2 mixedPair_initialized Hall).
Defined.

(** X11 at the pixel (1, 1) of the fresh pair. *)
Lemma state_and_tile_agree_witness :
  (0 < 2 /\ 0 < 2 /\ initialized 2 2 freshPair /\ inBounds 2 2 1 1 /\
   isHexColor6 "#12aB9f" = true) /\
  exists this1 this2 b1 b2,
    writeStateToBuffer [Pixel 1 1 "#12aB9f"] freshPair = (Ok tt, this1) /\
    drawTileToBuffer 1 1 "#12aB9f" freshPair = (Ok tt, this2) /\
    bufferEl this1 = Some b1 /\ bufferEl this2 = Some b2 /\
    pixelAt b1 1 1 = pixelAt b2 1 1 /\
    pixelAt b2 1 1 = Some (colorPixel (parseHexColor "#12aB9f")).
Proof.
  assert (H2 : 0 < 2) by lia.
  assert (Hin : inBounds 2 2 1 1) by (unfold inBounds; lia).
  assert (Hc : isHexColor6 "#12aB9f" = true) by reflexivity.
  split; [auto using freshPair_initialized|].
  exact (state_and_tile_agree 2 2 freshPair 1 1 "#12aB9f"
           H2 H2 freshPair_initialized Hin Hc).
Defined.

(** X12 at the object as the module returns it. *)
Lemma calls_before_init_throw_witness :
  (el initial = None /\ bufferEl initial = None /\
   forall state, DrawTileAt 0 0 "#ff0000" <> WriteStateToBuffer state) /\
  perform (DrawTileAt 0 0 "#ff0000") initial = (Throw TypeError, initial).
Proof.
  assert (Hd : el initial = None) by reflexivity.
  assert (Hb : bufferEl initial = None) by reflexivity.
  assert (Hop : forall state, DrawTileAt 0 0 "#ff0000" <> WriteStateToBuffer state)
    by (intros state; discriminate).
  split; [auto|].
  exact (calls_before_init_throw initial (DrawTileAt 0 0 "#ff0000") Hd Hb Hop).
Defined.

(** X13 at the object as the module returns it. *)
Lemma writeStateToBuffer_before_init_throws_witness :
  bufferEl initial = None /\
  exists e, writeStateToBuffer [Pixel 0 0 "#ff0000"] initial = (Throw e, initial).
Proof.
  assert (Hb : bufferEl initial = None) by reflexivity.
  split; [exact Hb|].
  exact (writeStateToBuffer_before_init_throws initial [Pixel 0 0 "#ff0000"] Hb).
Defined.

(** X14 at a flush that follows three calls. *)
Lemma calls_after_init_complete_witness :
  (0 < 2 /\ 0 < 2) /\
  (perform DrawBufferToDisplay
     (performAll
        [DrawTileToDisplay 0 0 "#00ff00"; WriteStateToBuffer [Pixel 5 5 "zz"];
         DrawDisplayToBuffer]
        (init (blankCanvas 300 150) 2 2 initial).2)).1 = Ok tt.
Proof.
  assert (H2 : 0 < 2) by lia.
  split; [auto|].
  exact (calls_after_init_complete (blankCanvas 300 150) 2 2 initial
           [DrawTileToDisplay 0 0 "#00ff00"; WriteStateToBuffer [Pixel 5 5 "zz"];
            DrawDisplayToBuffer]
           DrawBufferToDisplay H2 H2).
Defined.

(** X16 at a second [init] of the mixed pair. *)
Lemma init_clears_both_canvases_witness :
  inBounds 2 2 0 0 /\
  exists this' d b,
    init (blankCanvas 300 150) 2 2 mixedPair = (Ok tt, this') /\
    el this' = Some d /\ bufferEl this' = Some b /\
    pixelAt d 0 0 = Some transparent /\ pixelAt b 0 0 = Some transparent /\
    isBufferDirty this' = isBufferDirty mixedPair /\
    isDisplayDirty this' = isDisplayDirty mixedPair.
Proof.
  assert (Hin : inBounds 2 2 0 0) by (unfold inBounds; lia).
  split; [exact Hin|].
  exact (init_clears_both_canvases (blankCanvas 300 150) 2 2 mixedPair 0 0 Hin).
Defined.

(** X17 at the fresh pair. *)
Lemma writeStateToBuffer_absorbs_earlier_state_witness :
  let earlier := [Pixel 0 0 "#ff0000"; Pixel 1 0 "#00ff00"] in
  let state := [Pixel 1 1 "#0000ff"] in
  (0 < 2 /\ 0 < 2 /\ initialized 2 2 freshPair) /\
  writeStateToBuffer state (writeStateToBuffer earlier freshPair).2
    = writeStateToBuffer state freshPair /\
  writeStateToBuffer state (writeStateToBuffer state freshPair).2
    = writeStateToBuffer state freshPair.
Proof.
  intros earlier state.
  assert (H2 : 0 < 2) by lia.
  split; [auto using freshPair_initialized|].
  exact (writeStateToBuffer_absorbs_earlier_state 2 2 freshPair earlier state
           H2 H2 freshPair_initialized).
Defined.

(** X18 at a state with an update past the end of a row, one below the
    grid and one to the left of it. *)
Lemma writeStateToBuffer_any_state_witness :
  let state := [Pixel 2 0 "#ff0000"; Pixel 0 7 "#00ff00"; Pixel (-1) 1 "red"] in
  (0 < 2 /\ 0 < 2 /\ initialized 2 2 freshPair /\
   Forall (fun p => exactIndex 2 (pixelX p) (pixelY p)) state) /\
  (forall pixelData,
     fold_left (writePixelStateNumber 2) state pixelData
       = fold_left (writePixelState 2) state pixelData) /\
  exists this' b',
    writeStateToBuffer state freshPair = (Ok tt, this') /\
    bufferEl this' = Some b' /\
    (forall x y, inBounds 2 2 x y ->
       pixelAt b' x y =
         Some match lastLanding 2 x y state with
              | Some p => colorPixel (parseHexColor (pixelColor p))
              | None => transparent
              end) /\
    (forall x y p, pixelAt b' x y = Some p -> p = transparent \/ chAlpha p = 255).
Proof.
  intros state.
  assert (H2 : 0 < 2) by lia.
  assert (Hex : Forall (fun p => exactIndex 2 (pixelX p) (pixelY p)) state)
    by (unfold state; repeat (apply Forall_cons; split; [exact_index|]);
        exact (List.Forall_nil _)).
  split; [auto using freshPair_initialized|].
  exact (writeStateToBuffer_any_state 2 2 freshPair state
           H2 H2 freshPair_initialized Hex).
Defined.

(** X19 at a list and the same list with its first two updates swapped;
    two of its updates fall below the grid, on the same index. *)
Lemma writeStateToBuffer_order_of_distinct_updates_witness :
  let rest := [Pixel 1 1 "#0000ff"; Pixel 0 9 "#222222"] in
  let state1 := Pixel 0 0 "#ff0000" :: Pixel 0 9 "#111111" :: rest in
  let state2 := Pixel 0 9 "#111111" :: Pixel 0 0 "#ff0000" :: rest in
  (0 < 2 /\ 0 < 2 /\ initialized 2 2 freshPair /\
   Forall (fun p => exactIndex 2 (pixelX p) (pixelY p)) state1 /\
   NoDup ((fun p => flatIndex 2 (pixelX p) (pixelY p))
            <$> List.filter (landsInside 2 2) state1) /\
   state1 ≡ₚ state2) /\
  (forall pixelData,
     fold_left (writePixelStateNumber 2) state1 pixelData
       = fold_left (writePixelState 2) state1 pixelData /\
     fold_left (writePixelStateNumber 2) state2 pixelData
       = fold_left (writePixelState 2) state2 pixelData) /\
  exists this1 this2 b1 b2,
    writeStateToBuffer state1 freshPair = (Ok tt, this1) /\
    writeStateToBuffer state2 freshPair = (Ok tt, this2) /\
    bufferEl this1 = Some b1 /\ bufferEl this2 = Some b2 /\
    forall x y, pixelAt b1 x y = pixelAt b2 x y.
Proof.
  intros rest state1 state2.
  assert (H2 : 0 < 2) by lia.
  assert (Hex : Forall (fun p => exactIndex 2 (pixelX p) (pixelY p)) state1)
    by (unfold state1, rest; repeat (apply Forall_cons; split; [exact_index|]);
        exact (List.Forall_nil _)).
  assert (Hnd : NoDup ((fun p => flatIndex 2 (pixelX p) (pixelY p))
                         <$> List.filter (landsInside 2 2) state1))
    by (apply (bool_decide_unpack (NoDup _)); vm_compute; exact I).
  assert (Hperm : state1 ≡ₚ state2) by apply perm_swap.
  split; [split_and!; first [assumption | apply freshPair_initialized]|].
  exact (writeStateToBuffer_order_of_distinct_updates 2 2 freshPair state1 state2
           H2 H2 freshPair_initialized Hex Hnd Hperm).
Defined.

(** X21 at a target that already has one of the two listeners. *)
Lemma bindEvents_registers_nothing_twice_witness :
  NoDup [mkListener "click" 2 true] /\
  NoDup (bindEvents [mkListener "click" 2 true]
           [("mouseup"%string, 1%nat); ("click"%string, 2%nat)] (Some false)).
Proof.
  assert (Hnd : NoDup [mkListener "click" 2 true])
    by (apply (bool_decide_unpack (NoDup _)); vm_compute; exact I).
  split; [exact Hnd|].
  exact (bindEvents_registers_nothing_twice [mkListener "click" 2 true]
           [("mouseup"%string, 1%nat); ("click"%string, 2%nat)] (Some false) Hnd).
Defined.

(** X24 at a number passed for [fn]. *)
Lemma hijack_with_no_function_witness :
  (forall g, VNumber 7 <> VFunction g) /\
  hijack (∅ : gmap string Value) "draw" (VNumber 7) !! "draw"%string
    = Some (VFunction (Hijacked VUndefined (VNumber 7))) /\
  applyFn (fun _ _ obj => (Ok VUndefined, obj)) (Hijacked VUndefined (VNumber 7)) [] ∅
    = (Throw TypeError, <["targetMethod"%string := VUndefined]> ∅).
Proof.
  assert (Hfn : forall g, VNumber 7 <> VFunction g) by (intros g; discriminate).
  split; [exact Hfn|].
  exact (hijack_with_no_function (fun _ _ obj => (Ok VUndefined, obj))
           ∅ "draw" (VNumber 7) [] ∅ Hfn).
Defined.
